(** * Semantic Postgres MCP server: retrieval, prompt assembly and execution

    A shallow embedding of the request pipeline of the server
    ([generateEmbedding], [findSimilarTables], [findSimilarColumns],
    [getDatabaseSchema], [generateSQLWithClaude], [semanticSQLExecute]) and
    of its earlier variant without a language model (module [Index]).

    The three external services (the embedding API, the PostgreSQL client
    and the completion API) are fields of a [World]; every call to one of
    them is recorded as an [Event], so that statements about which service
    was called, with what, and in what order are statements about lists.

    Conventions:
    - a JavaScript string is a [string] whose characters are code units
      below 256;
    - [console.error] output is not part of the model;
    - similarity scores are rationals: the store's [float8] arithmetic is
      abstracted, its ordering is kept;
    - the order in which the store returns rows of equal sort key is not
      fixed by the model: a metadata relation is listed in that order. *)

From stdpp Require Import base option strings list numbers sorting.
From Stdlib Require Import Ascii QArith.

Open Scope string_scope.
Open Scope list_scope.

(** ** JavaScript strings *)

(** [WhiteSpace] and [LineTerminator] code units below 256, the characters
    [String.prototype.trim] removes: TAB, LF, VT, FF, CR, SP, NBSP. *)
Definition is_js_space (a : ascii) : bool :=
  let n := nat_of_ascii a in
  (n =? 9)%nat || (n =? 10)%nat || (n =? 11)%nat || (n =? 12)%nat ||
  (n =? 13)%nat || (n =? 32)%nat || (n =? 160)%nat.

Fixpoint trim_start (s : string) : string :=
  match s with
  | EmptyString => EmptyString
  | String a r => if is_js_space a then trim_start r else s
  end.

Fixpoint trim_end (s : string) : string :=
  match s with
  | EmptyString => EmptyString
  | String a r =>
      match trim_end r with
      | EmptyString => if is_js_space a then EmptyString else String a EmptyString
      | r' => String a r'
      end
  end.

(** [s.trim()] *)
Definition trim (s : string) : string := trim_end (trim_start s).

Fixpoint all_space (s : string) : bool :=
  match s with
  | EmptyString => true
  | String a r => is_js_space a && all_space r
  end.

Fixpoint no_space (s : string) : bool :=
  match s with
  | EmptyString => true
  | String a r => negb (is_js_space a) && no_space r
  end.

(** Truthiness of a string value: every string but the empty one. *)
Definition truthy_string (s : string) : bool :=
  match s with EmptyString => false | _ => true end.

(** [l.join(sep)] on an array of strings. *)
Fixpoint join (sep : string) (l : list string) : string :=
  match l with
  | [] => ""
  | [x] => x
  | x :: r => x +:+ sep +:+ join sep r
  end.

(** A template literal prints [null] for a null value. *)
Definition template_of (o : option string) : string :=
  match o with Some s => s | None => "null" end.

Fixpoint is_prefix (p s : string) : bool :=
  match p, s with
  | EmptyString, _ => true
  | String a p', String b s' => if Ascii.eqb a b then is_prefix p' s' else false
  | String _ _, EmptyString => false
  end.

(** [s.includes(p)] *)
Fixpoint includes (p s : string) : bool :=
  is_prefix p s ||
  match s with
  | EmptyString => false
  | String _ s' => includes p s'
  end.

(** ** The metadata relations and the rows the queries return *)

Definition vector := list Q.

(** A row of [table_metadata]. *)
Record TableMeta := {
  tm_table_name : string;
  tm_description : option string;
  tm_primary_key_column : option string;
  tm_embedding : option vector
}.

(** A row of [column_metadata]. *)
Record ColumnMeta := {
  cm_table_name : string;
  cm_column_name : string;
  cm_data_type : string;
  cm_description : option string;
  cm_is_primary_key : option bool;
  cm_is_foreign_key : option bool;
  cm_references_table : option string;
  cm_references_column : option string;
  cm_embedding : option vector
}.

(** A row of the table ranking query: [table_name, description, similarity]. *)
Record TableRow := {
  tr_table_name : string;
  tr_description : option string;
  tr_similarity : option Q
}.

(** A row of the column ranking query. *)
Record ColumnRow := {
  table_name : string;
  column_name : string;
  description : option string;
  data_type : string;
  is_primary_key : option bool;
  is_foreign_key : option bool;
  references_table : option string;
  references_column : option string;
  similarity : option Q
}.

(** A row of the first query of [getDatabaseSchema]. *)
Record SchemaTable := {
  st_table_name : string;
  st_description : option string;
  st_primary_key_column : option string
}.

(** [databaseSchema]: [{ tables, columns }]. *)
Record DatabaseSchema := {
  tables : list SchemaTable;
  columns : list ColumnRow
}.

(** A value of a result row of an arbitrary statement. *)
Inductive SqlValue :=
| VNull
| VText (s : string)
| VNumber (q : Q)
| VBool (b : bool).

Definition Row := list (string * SqlValue).

(** ** The ranking queries, as the store evaluates them *)

(** The sort order of [ORDER BY similarity DESC]: a NULL similarity sorts
    before every number, numbers in decreasing order. *)
Definition similarity_desc (x y : option Q) : Prop :=
  match x, y with
  | None, _ => True
  | Some _, None => False
  | Some a, Some b => (b <= a)%Q
  end.

#[global] Instance similarity_desc_dec : RelDecision similarity_desc.
Proof.
  intros [a|] [b|]; simpl.
  - destruct (Qlt_le_dec a b) as [Hlt|Hle].
    + right. intros Hba. exact (Qlt_not_le _ _ Hlt Hba).
    + left. exact Hle.
  - right. intros [].
  - left. exact I.
  - left. exact I.
Defined.

(** [ORDER BY] fixes the relative order of two rows only where their sort
    keys differ.  Rows of equal key come out in an order the statement does
    not determine: it depends on the plan and on the physical layout, and
    is not the order of insertion.  [order_by] takes that order from its
    argument: the list stands for the rows of the relation in the order in
    which the store emits rows of equal key, and a row is moved only past
    rows whose key sorts strictly before its own. *)
Fixpoint insert_by {A} (R : relation A) `{!RelDecision R}
    (x : A) (l : list A) : list A :=
  match l with
  | [] => [x]
  | y :: r => if decide (R x y) then x :: y :: r else y :: insert_by R x r
  end.

Definition order_by {A} (R : relation A) `{!RelDecision R}
    (l : list A) : list A :=
  foldr (insert_by R) [] l.

Section Ranking.

(** pgvector's cosine distance operator. *)
Variable cosine_distance : vector -> vector -> Q.

(** [1 - (embedding <=> $1::vector) as similarity]; NULL when the stored
    embedding is NULL. *)
Definition similarity_of (embedding : option vector) (q : vector) : option Q :=
  match embedding with
  | Some e => Some (1 - cosine_distance e q)%Q
  | None => None
  end.

Definition select_table_row (q : vector) (m : TableMeta) : TableRow :=
  {| tr_table_name := tm_table_name m;
     tr_description := tm_description m;
     tr_similarity := similarity_of (tm_embedding m) q |}.

Definition select_column_row (q : vector) (m : ColumnMeta) : ColumnRow :=
  {| table_name := cm_table_name m;
     column_name := cm_column_name m;
     description := cm_description m;
     data_type := cm_data_type m;
     is_primary_key := cm_is_primary_key m;
     is_foreign_key := cm_is_foreign_key m;
     references_table := cm_references_table m;
     references_column := cm_references_column m;
     similarity := similarity_of (cm_embedding m) q |}.

Definition by_tr_similarity (a b : TableRow) : Prop :=
  similarity_desc (tr_similarity a) (tr_similarity b).

Definition by_similarity (a b : ColumnRow) : Prop :=
  similarity_desc (similarity a) (similarity b).

#[global] Instance by_tr_similarity_dec : RelDecision by_tr_similarity.
Proof. intros a b. unfold by_tr_similarity. apply _. Defined.

#[global] Instance by_similarity_dec : RelDecision by_similarity.
Proof. intros a b. unfold by_similarity. apply _. Defined.

(** [SELECT table_name, description, 1 - (embedding <=> $1) as similarity
     FROM table_metadata ORDER BY similarity DESC LIMIT k].  Among rows of
    equal similarity (and among rows without one) the order, and which of
    them the limit keeps, is that of [c]. *)
Definition rank_tables (k : nat) (q : vector) (c : list TableMeta) : list TableRow :=
  take k (order_by by_tr_similarity (map (select_table_row q) c)).

(** The same query form over [column_metadata]. *)
Definition rank_columns (k : nat) (q : vector) (c : list ColumnMeta) : list ColumnRow :=
  take k (order_by by_similarity (map (select_column_row q) c)).

End Ranking.

(** ** Effects: the services, their calls, exceptions *)

(** One call to an external service. *)
Inductive Event :=
| CreateEmbedding (input : string)
| PgQuery (text : string) (values : list vector)
| MessagesCreate (prompt : string).

(** The calls made so far, oldest first. *)
Definition History := list Event.

(** How an awaited promise settles. *)
Inductive Settled (A : Type) :=
| Fulfilled (a : A)
| Rejected (message : string).
Arguments Fulfilled {A} a.
Arguments Rejected {A} message.

(** The environment of the server. Every answer may depend on the calls made
    before it, so a service can succeed once and fail the next time. *)
Record World := {
  (** [openai.createEmbedding], reduced to [response.data.data[0].embedding] *)
  openai_createEmbedding : History -> string -> Settled vector;
  (** the store rejects this query (connection lost, syntax error, vectors
      of different dimensions, missing relation, ...) with this message *)
  pg_error : History -> string -> list vector -> option string;
  (** the contents of the two metadata relations, each in the order in
      which the store emits rows of equal sort key (see [order_by]) *)
  table_metadata : History -> list TableMeta;
  column_metadata : History -> list ColumnMeta;
  (** the rows of any other statement the store accepts *)
  pg_rows : History -> string -> list Row;
  (** pgvector's [<=>] *)
  cosine_distance : vector -> vector -> Q;
  (** [anthropic.messages.create], reduced to [response.content[0].text] *)
  anthropic_messages_create : History -> string -> Settled string
}.

(** How the evaluation of a function body completes. *)
Inductive Completion (A : Type) :=
| Normal (a : A)
| Throw (message : string).
Arguments Normal {A} a.
Arguments Throw {A} message.

(** A computation reads the calls made before it and yields its completion
    together with the calls it made itself. *)
Definition Js (A : Type) : Type := History -> Completion A * list Event.

Definition ret {A} (a : A) : Js A := fun _ => (Normal a, []).

Definition throw {A} (message : string) : Js A := fun _ => (Throw message, []).

Definition bind {A B} (m : Js A) (f : A -> Js B) : Js B :=
  fun h =>
    match m h with
    | (Normal a, e1) =>
        match f a (h ++ e1) with
        | (r, e2) => (r, e1 ++ e2)
        end
    | (Throw msg, e1) => (Throw msg, e1)
    end.

(** [try { m } catch (err) { handler err.message }] *)
Definition try_catch {A} (m : Js A) (handler : string -> Js A) : Js A :=
  fun h =>
    match m h with
    | (Normal a, e1) => (Normal a, e1)
    | (Throw msg, e1) =>
        match handler msg (h ++ e1) with
        | (r, e2) => (r, e1 ++ e2)
        end
    end.

(** [await] on a service call: the call is recorded, a rejection throws. *)
Definition await {A} (e : Event) (answer : History -> Settled A) : Js A :=
  fun h =>
    (match answer h with
     | Fulfilled a => Normal a
     | Rejected msg => Throw msg
     end, [e]).

Declare Scope js_scope.
Delimit Scope js_scope with js.
Notation "'let*' x := m 'in' k" := (bind m (fun x => k))
  (at level 10, x name, m at level 100, k at level 200) : js_scope.
Open Scope js_scope.

Definition completion {A} (r : Completion A * list Event) : Completion A := fst r.
Definition calls {A} (r : Completion A * list Event) : list Event := snd r.

Definition is_MessagesCreate (e : Event) : bool :=
  match e with MessagesCreate _ => true | _ => false end.

Definition is_PgQuery (e : Event) : bool :=
  match e with PgQuery _ _ => true | _ => false end.

(** ** The query texts *)

Definition RANK_TABLES_SQL : string := "
      SELECT table_name, description, 
             1 - (embedding <=> $1::vector) as similarity
      FROM table_metadata
      ORDER BY similarity DESC
      LIMIT 5;
    ".

Definition RANK_COLUMNS_SQL : string := "
      SELECT table_name, column_name, description, data_type,
             is_primary_key, is_foreign_key, references_table, references_column,
             1 - (embedding <=> $1::vector) as similarity
      FROM column_metadata
      ORDER BY similarity DESC
      LIMIT 10;
    ".

Definition SCHEMA_TABLES_SQL : string := "
      SELECT table_name, description, primary_key_column
      FROM table_metadata
    ".

Definition SCHEMA_COLUMNS_SQL : string := "
      SELECT table_name, column_name, data_type, description, 
             is_primary_key, is_foreign_key, references_table, references_column
      FROM column_metadata
    ".

(** ** The PostgreSQL client, one operation per form of query *)

Section Client.

Variable w : World.

(** [pgClient.query(text, values)] where the store computes [rows]. *)
Definition pg_query {A} (text : string) (values : list vector)
    (rows : History -> A) : Js A :=
  await (PgQuery text values)
    (fun h => match pg_error w h text values with
              | Some msg => Rejected msg
              | None => Fulfilled (rows h)
              end).

Definition query_rank_tables (q : vector) : Js (list TableRow) :=
  pg_query RANK_TABLES_SQL [q]
    (fun h => rank_tables (cosine_distance w) 5 q (table_metadata w h)).

Definition query_rank_columns (q : vector) : Js (list ColumnRow) :=
  pg_query RANK_COLUMNS_SQL [q]
    (fun h => rank_columns (cosine_distance w) 10 q (column_metadata w h)).

Definition schema_table_of (m : TableMeta) : SchemaTable :=
  {| st_table_name := tm_table_name m;
     st_description := tm_description m;
     st_primary_key_column := tm_primary_key_column m |}.

(** The second query of [getDatabaseSchema] selects no similarity. *)
Definition schema_column_of (m : ColumnMeta) : ColumnRow :=
  {| table_name := cm_table_name m;
     column_name := cm_column_name m;
     description := cm_description m;
     data_type := cm_data_type m;
     is_primary_key := cm_is_primary_key m;
     is_foreign_key := cm_is_foreign_key m;
     references_table := cm_references_table m;
     references_column := cm_references_column m;
     similarity := None |}.

Definition query_schema_tables : Js (list SchemaTable) :=
  pg_query SCHEMA_TABLES_SQL []
    (fun h => map schema_table_of (table_metadata w h)).

Definition query_schema_columns : Js (list ColumnRow) :=
  pg_query SCHEMA_COLUMNS_SQL []
    (fun h => map schema_column_of (column_metadata w h)).

(** [pgClient.query(statement)] on a statement given as text. *)
Definition query_statement (statement : string) : Js (list Row) :=
  pg_query statement [] (fun h => pg_rows w h statement).

(** ** Retrieval *)

Definition generateEmbedding (text : string) : Js (option vector) :=
  try_catch
    (let* embedding := await (CreateEmbedding text)
                         (fun h => openai_createEmbedding w h text) in
     ret (Some embedding))
    (fun _ => ret None).

Definition findSimilarTables (query : string) : Js (list TableRow) :=
  try_catch
    (let* queryEmbedding := generateEmbedding query in
     match queryEmbedding with
     | None => ret []
     | Some q => query_rank_tables q
     end)
    (fun _ => ret []).

Definition findSimilarColumns (query : string) : Js (list ColumnRow) :=
  try_catch
    (let* queryEmbedding := generateEmbedding query in
     match queryEmbedding with
     | None => ret []
     | Some q => query_rank_columns q
     end)
    (fun _ => ret []).

Definition getDatabaseSchema : Js DatabaseSchema :=
  try_catch
    (let* tablesResult := query_schema_tables in
     let* columnsResult := query_schema_columns in
     ret {| tables := tablesResult; columns := columnsResult |})
    (fun _ => ret {| tables := []; columns := [] |}).

End Client.

(** ** Plain objects used as maps *)

(** The own properties of an object created by [{}], in creation order. *)
Definition JsObject (V : Type) : Type := list (string * V).

(** The property names every plain object inherits from [Object.prototype]. *)
Definition object_prototype_keys : list string :=
  [ "constructor"; "__defineGetter__"; "__defineSetter__"; "hasOwnProperty";
    "__lookupGetter__"; "__lookupSetter__"; "isPrototypeOf";
    "propertyIsEnumerable"; "toString"; "valueOf"; "__proto__";
    "toLocaleString" ].

Definition inherited_key (k : string) : bool :=
  bool_decide (k ∈ object_prototype_keys).

Fixpoint own_property {V} (o : JsObject V) (k : string) : option V :=
  match o with
  | [] => None
  | (k', v) :: r => if bool_decide (k' = k) then Some v else own_property r k
  end.

(** What [o[k]] evaluates to. *)
Inductive Property (V : Type) :=
| Own (v : V)
| Inherited
| Undefined.
Arguments Own {V} v.
Arguments Inherited {V}.
Arguments Undefined {V}.

Definition get_property {V} (o : JsObject V) (k : string) : Property V :=
  match own_property o k with
  | Some v => Own v
  | None => if inherited_key k then Inherited else Undefined
  end.

(** Writing through a reference to the value of an own property. *)
Fixpoint update_own {V} (o : JsObject V) (k : string) (v : V) : JsObject V :=
  match o with
  | [] => []
  | (k', v') :: r =>
      if bool_decide (k' = k) then (k', v) :: r else (k', v') :: update_own r k v
  end.

Definition digit_of (a : ascii) : option N :=
  let n := N_of_ascii a in
  if (48 <=? n)%N && (n <=? 57)%N then Some (n - 48)%N else None.

Fixpoint decimal (s : string) (acc : N) : option N :=
  match s with
  | EmptyString => Some acc
  | String a r =>
      match digit_of a with
      | Some d => decimal r (10 * acc + d)%N
      | None => None
      end
  end.

(** An array index: the canonical decimal form of an integer below
    [2^32 - 1]. *)
Definition array_index (k : string) : option N :=
  match k with
  | EmptyString => None
  | String a r =>
      if Ascii.eqb a "0" && truthy_string r then None
      else match decimal k 0 with
           | Some n => if (n <? 4294967295)%N then Some n else None
           | None => None
           end
  end.

Definition by_index {V} (a b : N * V) : Prop := (a.1 ≤ b.1)%N.

#[global] Instance by_index_dec {V} : RelDecision (@by_index V).
Proof. intros a b. unfold by_index. apply _. Defined.

Definition index_properties {V} (o : JsObject V) : list (N * V) :=
  omap (fun kv => match array_index kv.1 with
                  | Some n => Some (n, kv.2)
                  | None => None
                  end) o.

Definition named_properties {V} (o : JsObject V) : list (string * V) :=
  filter (fun kv => array_index kv.1 = None) (o : list (string * V)).

(** [Object.values(o)]: array indices first, in ascending numeric order,
    then the other keys in creation order. *)
Definition object_values {V} (o : JsObject V) : list V :=
  map snd (merge_sort by_index (index_properties o)) ++
  map snd (named_properties o).

(** ** Assembling the schema context *)

(** An element of [relevantTables[t].columns]. *)
Record ColumnEntry := {
  col_name : string;
  col_data_type : string;
  col_description : option string;
  col_is_primary_key : option bool;
  col_is_foreign_key : option bool;
  col_references_table : option string;
  col_references_column : option string
}.

(** A value of [relevantTables]: [{ name, columns, description }]. *)
Record RelevantTable := {
  rt_name : string;
  rt_columns : list ColumnEntry;
  rt_description : string
}.

Definition column_entry (column : ColumnRow) : ColumnEntry :=
  {| col_name := column_name column;
     col_data_type := data_type column;
     col_description := description column;
     col_is_primary_key := is_primary_key column;
     col_is_foreign_key := is_foreign_key column;
     col_references_table := references_table column;
     col_references_column := references_column column |}.

(** [databaseSchema.tables.find(t => t.table_name === name)?.description || ""] *)
Definition description_of (databaseSchema : DatabaseSchema) (name : string) : string :=
  match List.find (fun t => bool_decide (st_table_name t = name))
                  (tables databaseSchema) with
  | Some t => match st_description t with
              | Some d => d
              | None => ""
              end
  | None => ""
  end.

Definition push_column (g : RelevantTable) (e : ColumnEntry) : RelevantTable :=
  {| rt_name := rt_name g;
     rt_columns := rt_columns g ++ [e];
     rt_description := rt_description g |}.

Definition PUSH_OF_UNDEFINED : string :=
  "Cannot read properties of undefined (reading 'push')".

(** One iteration of [for (const column of similarColumns)]. *)
Definition relevantTables_step (databaseSchema : DatabaseSchema)
    (relevantTables : JsObject RelevantTable) (column : ColumnRow)
    : Completion (JsObject RelevantTable) :=
  let k := table_name column in
  let o :=
    match get_property relevantTables k with
    | Undefined =>
        relevantTables ++
          [(k, {| rt_name := k;
                  rt_columns := [];
                  rt_description := description_of databaseSchema k |})]
    | _ => relevantTables
    end in
  match get_property o k with
  | Own g => Normal (update_own o k (push_column g (column_entry column)))
  | _ => Throw PUSH_OF_UNDEFINED
  end.

Fixpoint relevantTables_loop (databaseSchema : DatabaseSchema)
    (relevantTables : JsObject RelevantTable) (similarColumns : list ColumnRow)
    : Completion (JsObject RelevantTable) :=
  match similarColumns with
  | [] => Normal relevantTables
  | column :: rest =>
      match relevantTables_step databaseSchema relevantTables column with
      | Normal o => relevantTables_loop databaseSchema o rest
      | Throw msg => Throw msg
      end
  end.

(** [relevantTables] after the loop, starting from [{}]. *)
Definition assemble (similarColumns : list ColumnRow)
    (databaseSchema : DatabaseSchema) : Completion (JsObject RelevantTable) :=
  relevantTables_loop databaseSchema [] similarColumns.

(** ** The prompt *)

Definition js_truthy (b : option bool) : bool :=
  match b with Some true => true | _ => false end.

Definition NL : string := String (ascii_of_nat 10) EmptyString.

Definition render_column (col : ColumnEntry) : string :=
  "- " +:+ col_name col +:+ " (" +:+ col_data_type col +:+ ")" +:+
  (if js_truthy (col_is_primary_key col) then " PRIMARY KEY" else "") +:+
  (if js_truthy (col_is_foreign_key col)
   then " FOREIGN KEY -> " +:+ template_of (col_references_table col) +:+ "." +:+
        template_of (col_references_column col)
   else "") +:+ " 
   Description: " +:+ template_of (col_description col).

Definition render_table (table : RelevantTable) : string :=
  "
TABLE: " +:+ rt_name table +:+ "
DESCRIPTION: " +:+ rt_description table +:+ "
COLUMNS:
" +:+ join NL (map render_column (rt_columns table)).

(** The text between the two fixed parts of the prompt. *)
Definition schema_context (relevantTables : JsObject RelevantTable) : string :=
  join (NL +:+ NL) (map render_table (object_values relevantTables)).

Definition build_prompt (userQuery : string)
    (relevantTables : JsObject RelevantTable) : string :=
  "
You are an expert SQL query generator. Given a user's natural language question and information about relevant database tables and columns, generate a valid PostgreSQL query that answers the user's question.

USER QUESTION:
" +:+ userQuery +:+ "

DATABASE SCHEMA:
Tables and columns that are most semantically relevant to the user's question:
" +:+ schema_context relevantTables +:+ "

TASK:
Generate a valid PostgreSQL query that answers the user's question based on the available database schema.
Your query should:
1. Include only tables and columns that exist in the database
2. Use proper JOIN syntax where relationships between tables exist
3. Use appropriate conditions and filters based on the user's question
4. Be optimized and efficient
5. Return meaningful column names (use aliases where appropriate)

RESPONSE FORMAT:
Respond with ONLY the SQL query, nothing else - no explanations, no comments, just the raw SQL query.
".

(** ** Synthesis and orchestration *)

(** The object [semanticSQLExecute] resolves to; [None] is an absent
    property. *)
Record Envelope := {
  results : list Row;
  similarTables : option (list TableRow);
  similarColumns : option (list ColumnRow);
  executedQuery : option string;
  error : option string;
  generatedQuery : option string
}.

(** The test [sqlStatement && sqlStatement.trim()]; an omitted argument is
    [None]. *)
Definition statement_supplied (sqlStatement : option string) : bool :=
  match sqlStatement with
  | Some s => truthy_string s && truthy_string (trim s)
  | None => false
  end.

(** A completed synchronous step inside an [async] body. *)
Definition lift {A} (c : Completion A) : Js A := fun _ => (c, []).

Section Server.

Variable w : World.

Definition generateSQLWithClaude (userQuery : string)
    (similarTables : list TableRow) (similarColumns : list ColumnRow)
    (databaseSchema : DatabaseSchema) : Js string :=
  try_catch
    (let* relevantTables := lift (assemble similarColumns databaseSchema) in
     let prompt := build_prompt userQuery relevantTables in
     let* text := await (MessagesCreate prompt)
                    (fun h => anthropic_messages_create w h prompt) in
     let generatedSQL := trim text in
     ret generatedSQL)
    (fun message => throw ("Failed to generate SQL: " +:+ message)).

Definition semanticSQLExecute (query : string) (sqlStatement : option string)
    : Js Envelope :=
  try_catch
    (let* databaseSchema := getDatabaseSchema w in
     let* similarTables := findSimilarTables w query in
     let* similarColumns := findSimilarColumns w query in
     let otherwise : Js Envelope :=
       if (0 <? length similarColumns)%nat then
         let* generatedSQL :=
           generateSQLWithClaude query similarTables similarColumns
             databaseSchema in
         try_catch
           (let* result := query_statement w generatedSQL in
            ret {| results := result;
                   similarTables := Some similarTables;
                   similarColumns := Some similarColumns;
                   executedQuery := Some generatedSQL;
                   error := None;
                   generatedQuery := None |})
           (fun message =>
              ret {| results := [];
                     similarTables := Some similarTables;
                     similarColumns := Some similarColumns;
                     executedQuery := None;
                     error := Some ("Error executing generated SQL: " +:+ message);
                     generatedQuery := Some generatedSQL |})
       else
         ret {| results := [];
                similarTables := Some similarTables;
                similarColumns := Some similarColumns;
                executedQuery := None;
                error := Some "Could not determine which data to query.";
                generatedQuery := None |} in
     match sqlStatement with
     | Some statement =>
         if statement_supplied sqlStatement then
           let* result := query_statement w statement in
           ret {| results := result;
                  similarTables := Some similarTables;
                  similarColumns := Some similarColumns;
                  executedQuery := Some statement;
                  error := None;
                  generatedQuery := None |}
         else otherwise
     | None => otherwise
     end)
    (fun message =>
       ret {| results := [];
              similarTables := None;
              similarColumns := None;
              executedQuery := None;
              error := Some message;
              generatedQuery := None |}).

End Server.

(** ** The variant without a language model (Index.js) *)

Module Index.

(** A row of this variant's ranking query:
    [table_name, column_name, description, similarity]. *)
Record ColumnRow := {
  table_name : string;
  column_name : string;
  description : option string;
  similarity : option Q
}.

Record Envelope := {
  results : list Row;
  similarColumns : option (list ColumnRow);
  executedQuery : option string;
  error : option string
}.

Definition RANK_COLUMNS_SQL : string := "
      SELECT table_name, column_name, description, 
             1 - (embedding <=> $1::vector) as similarity
      FROM column_metadata
      ORDER BY similarity DESC
      LIMIT 5;
    ".

Definition select_column_row (dist : vector -> vector -> Q) (q : vector)
    (m : ColumnMeta) : ColumnRow :=
  {| table_name := cm_table_name m;
     column_name := cm_column_name m;
     description := cm_description m;
     similarity := similarity_of dist (cm_embedding m) q |}.

Definition by_similarity (a b : ColumnRow) : Prop :=
  similarity_desc (similarity a) (similarity b).

#[global] Instance by_similarity_dec : RelDecision by_similarity.
Proof. intros a b. unfold by_similarity. apply _. Defined.

Definition rank_columns (dist : vector -> vector -> Q) (k : nat) (q : vector)
    (c : list ColumnMeta) : list ColumnRow :=
  take k (order_by by_similarity (map (select_column_row dist q) c)).

Section Server.

Variable w : World.

Definition query_rank_columns (q : vector) : Js (list ColumnRow) :=
  pg_query w RANK_COLUMNS_SQL [q]
    (fun h => rank_columns (cosine_distance w) 5 q (column_metadata w h)).

Definition findSimilarColumns (query : string) : Js (list ColumnRow) :=
  try_catch
    (let* queryEmbedding := generateEmbedding w query in
     match queryEmbedding with
     | None => ret []
     | Some q => query_rank_columns q
     end)
    (fun _ => ret []).

Definition semanticSQLExecute (query : string) (sqlStatement : option string)
    : Js Envelope :=
  try_catch
    (let* similarColumns := findSimilarColumns query in
     let otherwise : Js Envelope :=
       match similarColumns with
       | topColumn :: _ =>
           let generatedSQL :=
             "SELECT * FROM " +:+ table_name topColumn +:+ " LIMIT 10;" in
           let* result := query_statement w generatedSQL in
           ret {| results := result;
                  similarColumns := Some similarColumns;
                  executedQuery := Some generatedSQL;
                  error := None |}
       | [] =>
           ret {| results := [];
                  similarColumns := Some [];
                  executedQuery := None;
                  error := Some "Could not determine which data to query." |}
       end in
     match sqlStatement with
     | Some statement =>
         if statement_supplied sqlStatement then
           let* result := query_statement w statement in
           ret {| results := result;
                  similarColumns := Some similarColumns;
                  executedQuery := Some statement;
                  error := None |}
         else otherwise
     | None => otherwise
     end)
    (fun message =>
       ret {| results := [];
              similarColumns := None;
              executedQuery := None;
              error := Some message |}).

End Server.

End Index.

(** ** Vocabulary for statements about a request *)

Definition no_completion_call (e : list Event) : Prop :=
  Forall (fun ev => is_MessagesCreate ev = false) e.

(** What a ranking function yields and calls, read off the answers of the
    two services it awaits. *)
Definition ranked {A} (w : World) (text : string) (rows : vector -> History -> list A)
    (query : string) (h : History) : Completion (list A) * list Event :=
  match openai_createEmbedding w h query with
  | Rejected _ => (Normal [], [CreateEmbedding query])
  | Fulfilled q =>
      (Normal match pg_error w (h ++ [CreateEmbedding query]) text [q] with
              | Some _ => []
              | None => rows q (h ++ [CreateEmbedding query])
              end,
       [CreateEmbedding query; PgQuery text [q]])
  end.

(** The three retrieval steps that open [semanticSQLExecute]. *)
Definition retrieved (w : World) (query : string) (h : History)
    (databaseSchema : DatabaseSchema) (e1 : list Event)
    (similarTables : list TableRow) (e2 : list Event)
    (similarColumns : list ColumnRow) (e3 : list Event) : Prop :=
  getDatabaseSchema w h = (Normal databaseSchema, e1) /\
  findSimilarTables w query (h ++ e1) = (Normal similarTables, e2) /\
  findSimilarColumns w query ((h ++ e1) ++ e2) = (Normal similarColumns, e3).

(** The envelope of the outermost [catch]. *)
Definition failure (message : string) : Envelope :=
  {| results := []; similarTables := None; similarColumns := None;
     executedQuery := None; error := Some message; generatedQuery := None |}.

(** ** The grouping the assembler is specified to compute *)

Definition note_first (seen : list string) (x : string) : list string :=
  if bool_decide (x ∈ seen) then seen else seen ++ [x].

(** The distinct elements of a list, each at the place of its first
    occurrence. *)
Definition first_occurrences (l : list string) : list string :=
  foldl note_first [] l.

(** The group of table [t]: its ranked columns, in ranked order. *)
Definition group_of (databaseSchema : DatabaseSchema)
    (similarColumns : list ColumnRow) (t : string) : RelevantTable :=
  {| rt_name := t;
     rt_columns :=
       map column_entry
         (filter (fun c => table_name c = t) similarColumns);
     rt_description := description_of databaseSchema t |}.

Definition grouped (databaseSchema : DatabaseSchema)
    (similarColumns : list ColumnRow) : JsObject RelevantTable :=
  map (fun t => (t, group_of databaseSchema similarColumns t))
      (first_occurrences (map table_name similarColumns)).

(** A table name that is an ordinary key of a plain object. *)
Definition ordinary_key (k : string) : Prop :=
  inherited_key k = false /\ array_index k = None.

(** ** Concrete environments *)

Module Examples.

Definition table (name : string) (d : option string) (e : option vector)
    : TableMeta :=
  {| tm_table_name := name;
     tm_description := d;
     tm_primary_key_column := None;
     tm_embedding := e |}.

Definition column (t c : string) (e : option vector) : ColumnMeta :=
  {| cm_table_name := t;
     cm_column_name := c;
     cm_data_type := "text";
     cm_description := Some "A text column";
     cm_is_primary_key := Some false;
     cm_is_foreign_key := Some false;
     cm_references_table := None;
     cm_references_column := None;
     cm_embedding := e |}.

Definition ranked_column (t c : string) (s : option Q) : ColumnRow :=
  {| table_name := t;
     column_name := c;
     description := Some "A text column";
     data_type := "text";
     is_primary_key := Some false;
     is_foreign_key := Some false;
     references_table := None;
     references_column := None;
     similarity := s |}.

(** A distance that only looks at the first stored coordinate. *)
Definition first_coordinate (e q : vector) : Q :=
  match e with
  | x :: _ => x
  | [] => 1
  end.

Definition FENCED : string := "```sql
SELECT * FROM customers;
```".

(** Every service answers; the completion service wraps its answer in a
    fenced block. *)
Definition healthy : World :=
  {| openai_createEmbedding := fun _ _ => Fulfilled [1%Q; 0%Q];
     pg_error := fun _ _ _ => None;
     table_metadata := fun _ =>
       [ table "orders" (Some "Customer orders") (Some [(1#2)%Q]);
         table "customers" (Some "Contains customer personal information")
           (Some [(1#4)%Q]) ];
     column_metadata := fun _ =>
       [ column "orders" "status" (Some [(1#2)%Q]);
         column "customers" "email" (Some [(1#4)%Q]);
         column "customers" "phone" None ];
     pg_rows := fun _ _ => [[("customer_id", VNumber 1)]];
     cosine_distance := first_coordinate;
     anthropic_messages_create := fun _ _ => Fulfilled FENCED |}.

(** The embedding service is down. *)
Definition embedding_outage : World :=
  {| openai_createEmbedding := fun _ _ => Rejected "503 Service Unavailable";
     pg_error := pg_error healthy;
     table_metadata := table_metadata healthy;
     column_metadata := column_metadata healthy;
     pg_rows := pg_rows healthy;
     cosine_distance := first_coordinate;
     anthropic_messages_create := anthropic_messages_create healthy |}.

(** The completion service answers with a destructive statement. *)
Definition destructive_completion : World :=
  {| openai_createEmbedding := openai_createEmbedding healthy;
     pg_error := pg_error healthy;
     table_metadata := table_metadata healthy;
     column_metadata := column_metadata healthy;
     pg_rows := fun _ _ => [];
     cosine_distance := first_coordinate;
     anthropic_messages_create := fun _ _ => Fulfilled "DELETE FROM orders;" |}.

Definition SYNTAX_ERROR : string := "syntax error at or near SELEC".

(** The store rejects every statement that is not one of the server's own
    metadata queries. *)
Definition strict_store : World :=
  {| openai_createEmbedding := openai_createEmbedding healthy;
     pg_error := fun _ text values =>
       if bool_decide (text ∈ [SCHEMA_TABLES_SQL; SCHEMA_COLUMNS_SQL;
                               RANK_TABLES_SQL; RANK_COLUMNS_SQL])
       then None else Some SYNTAX_ERROR;
     table_metadata := table_metadata healthy;
     column_metadata := column_metadata healthy;
     pg_rows := pg_rows healthy;
     cosine_distance := first_coordinate;
     anthropic_messages_create := fun _ _ => Fulfilled "SELEC 1" |}.

Definition no_schema : DatabaseSchema := {| tables := []; columns := [] |}.

(** Three ranked columns; the tables of the last two are named by years. *)
Definition yearly : list ColumnRow :=
  [ ranked_column "orders" "status" (Some (9 # 10));
    ranked_column "2024" "total" (Some (8 # 10));
    ranked_column "2023" "total" (Some (7 # 10)) ].

(** The same column, ranked twice. *)
Definition twice : list ColumnRow :=
  [ ranked_column "customers" "email" (Some (3 # 4));
    ranked_column "customers" "email" (Some (3 # 4)) ].

End Examples.

(** ** The tool handler *)

Module Tool.

(** The properties of [request.parameters] that the handler reads. A
    request that leaves out a property its tool requires is not covered. *)
Record Parameters := {
  natural_language_query : string;
  sql_statement : option string;
  description : string
}.

(** [request]: a tool name and, unless [request.parameters] is undefined,
    the parameters. *)
Record Request := {
  name : string;
  parameters : option Parameters
}.

(** What the handler resolves to: [{ result }] or [{ error }]. *)
Inductive Response :=
| QueryResult (result : Envelope)
| TablesResult (result : list TableRow)
| ColumnsResult (result : list ColumnRow)
| Error (error : string).

(** The message of the [TypeError] of destructuring [undefined]. *)
Definition CANNOT_DESTRUCTURE (property : string) : string :=
  "Cannot destructure property '" +:+ property +:+
  "' of 'request.parameters' as it is undefined.".

Section Handler.

Variable w : World.

(** The handler registered for [ExecuteToolRequestSchema]. *)
Definition executeTool (request : Request) : Js Response :=
  if bool_decide (name request = "execute_query") then
    match parameters request with
    | None => throw (CANNOT_DESTRUCTURE "natural_language_query")
    | Some p =>
        try_catch
          (let* result := semanticSQLExecute w (natural_language_query p)
                            (sql_statement p) in
           ret (QueryResult result))
          (fun message => ret (Error message))
    end
  else if bool_decide (name request = "find_similar_tables") then
    match parameters request with
    | None => throw (CANNOT_DESTRUCTURE "description")
    | Some p =>
        try_catch
          (let* similarTables := findSimilarTables w (description p) in
           ret (TablesResult similarTables))
          (fun message => ret (Error message))
    end
  else if bool_decide (name request = "find_similar_columns") then
    match parameters request with
    | None => throw (CANNOT_DESTRUCTURE "description")
    | Some p =>
        try_catch
          (let* similarColumns := findSimilarColumns w (description p) in
           ret (ColumnsResult similarColumns))
          (fun message => ret (Error message))
    end
  else ret (Error "Tool not found").

End Handler.

End Tool.

(** ** The resource handlers *)

(** The two resource handlers talk to the store only, at most one query for
    each request, and two of their queries carry text parameters. *)
Module Resources.

(** A query parameter; [undefined] is sent as NULL. *)
Inductive Value :=
| Text (s : string)
| Null.

#[global] Instance Value_eq_dec : EqDecision Value.
Proof. solve_decision. Defined.

(** [pgClient.query(text, values)] *)
Record Query := {
  text : string;
  values : list Value
}.

Record Store := {
  (** the store rejects this query with this message *)
  rejects : Query -> option string;
  (** the contents of the two metadata relations *)
  table_rows : list TableMeta;
  column_rows : list ColumnMeta;
  (** the collation: [collation a b] when [a] sorts no later than [b] *)
  collation : string -> string -> bool
}.

(** A computation yields its completion and the queries it sent. *)
Definition Rs (A : Type) : Type := Completion A * list Query.

Definition ret {A} (a : A) : Rs A := (Normal a, []).

Definition throw {A} (message : string) : Rs A := (Throw message, []).

Definition bind {A B} (m : Rs A) (f : A -> Rs B) : Rs B :=
  match m with
  | (Normal a, q1) =>
      match f a with
      | (r, q2) => (r, q1 ++ q2)
      end
  | (Throw msg, q1) => (Throw msg, q1)
  end.

Definition try_catch {A} (m : Rs A) (handler : string -> Rs A) : Rs A :=
  match m with
  | (Normal a, q1) => (Normal a, q1)
  | (Throw msg, q1) =>
      match handler msg with
      | (r, q2) => (r, q1 ++ q2)
      end
  end.

Definition query {A} (st : Store) (text : string) (values : list Value)
    (rows : A) : Rs A :=
  (match rejects st {| text := text; values := values |} with
   | Some msg => Throw msg
   | None => Normal rows
   end, [{| text := text; values := values |}]).

Declare Scope rs_scope.
Delimit Scope rs_scope with rs.
Notation "'let*' x := m 'in' k" := (bind m (fun x => k))
  (at level 10, x name, m at level 100, k at level 200) : rs_scope.

(** [request]: [resourceName] and, unless it is undefined, [resourceId]. *)
Record Request := {
  resourceName : string;
  resourceId : option string
}.

Definition LIST_TABLES_SQL : string := "SELECT table_name FROM table_metadata".

Definition LIST_COLUMNS_SQL : string :=
  "SELECT table_name, column_name FROM column_metadata".

Definition READ_SCHEMA_SQL : string := "
        SELECT table_name, column_name, data_type, description 
        FROM column_metadata
        ORDER BY table_name, column_name
      ".

Definition READ_TABLE_SQL : string := "
        SELECT table_name, description, primary_key_column
        FROM table_metadata
        WHERE table_name = $1
      ".

Definition READ_COLUMN_SQL : string := "
        SELECT table_name, column_name, data_type, description, 
               is_primary_key, is_foreign_key, references_table, references_column
        FROM column_metadata
        WHERE table_name = $1 AND column_name = $2
      ".

(** [`${row.table_name}.${row.column_name}`] *)
Definition column_id (m : ColumnMeta) : string :=
  cm_table_name m +:+ "." +:+ cm_column_name m.

Section Handlers.

Variable st : Store.

Local Open Scope rs_scope.

(** The handler registered for [ListResourcesRequestSchema]; the result is
    the [resources] array. *)
Definition listResources (request : Request) : Rs (list string) :=
  if bool_decide (resourceName request = "schemas") then
    ret ["main"]
  else if bool_decide (resourceName request = "tables") then
    try_catch
      (let* rows := query st LIST_TABLES_SQL [] (table_rows st) in
       ret (map tm_table_name rows))
      (fun _ => ret [])
  else if bool_decide (resourceName request = "columns") then
    try_catch
      (let* rows := query st LIST_COLUMNS_SQL [] (column_rows st) in
       ret (map column_id rows))
      (fun _ => ret [])
  else ret [].

(** [s.split(".")] *)
Fixpoint split_dot (s : string) : list string :=
  match s with
  | EmptyString => [EmptyString]
  | String a r =>
      if Ascii.eqb a "." then EmptyString :: split_dot r
      else match split_dot r with
           | x :: xs => String a x :: xs
           | [] => [String a EmptyString]
           end
  end.

(** An element of a destructured array as a query parameter. *)
Definition element (parts : list string) (i : nat) : Value :=
  match parts !! i with
  | Some s => Text s
  | None => Null
  end.

(** [column = $n]: never true of NULL. *)
Definition equals (column : string) (v : Value) : bool :=
  bool_decide (v = Text column).

(** [ORDER BY table_name, column_name] under the store's collation. *)
Definition schema_order (a b : ColumnMeta) : Prop :=
  collation st (cm_table_name a) (cm_table_name b) = true /\
  (collation st (cm_table_name b) (cm_table_name a) = true ->
   collation st (cm_column_name a) (cm_column_name b) = true).

#[global] Instance schema_order_dec : RelDecision schema_order.
Proof. intros a b. unfold schema_order. apply _. Defined.

(** An element of [schema[t]]: [{ name, type, description }]. *)
Record SchemaEntry := {
  se_name : string;
  se_type : string;
  se_description : option string
}.

Definition schema_entry (row : ColumnMeta) : SchemaEntry :=
  {| se_name := cm_column_name row;
     se_type := cm_data_type row;
     se_description := cm_description row |}.

Definition PUSH_NOT_A_FUNCTION : string :=
  "schema[row.table_name].push is not a function".

Definition SPLIT_OF_UNDEFINED : string :=
  "Cannot read properties of undefined (reading 'split')".

(** One iteration of [for (const row of result.rows)]. *)
Definition schema_step (schema : JsObject (list SchemaEntry))
    (row : ColumnMeta) : Completion (JsObject (list SchemaEntry)) :=
  let k := cm_table_name row in
  let o :=
    match get_property schema k with
    | Undefined => schema ++ [(k, [])]
    | _ => schema
    end in
  match get_property o k with
  | Own entries => Normal (update_own o k (entries ++ [schema_entry row]))
  | _ => Throw PUSH_NOT_A_FUNCTION
  end.

Fixpoint schema_loop (schema : JsObject (list SchemaEntry))
    (rows : list ColumnMeta) : Completion (JsObject (list SchemaEntry)) :=
  match rows with
  | [] => Normal schema
  | row :: rest =>
      match schema_step schema row with
      | Normal o => schema_loop o rest
      | Throw msg => Throw msg
      end
  end.

(** What [{ content }] holds. *)
Inductive Content :=
| SchemaContent (schema : JsObject (list SchemaEntry))
| TableContent (row : SchemaTable)
| ColumnContent (row : ColumnRow).

(** What the read handler resolves to: [{ content }] or [{ error }]. *)
Inductive Response :=
| Found (content : Content)
| Error (error : string).

(** The handler registered for [ReadResourceRequestSchema]. *)
Definition readResource (request : Request) : Rs Response :=
  if bool_decide (resourceName request = "schemas") &&
     bool_decide (resourceId request = Some "main") then
    try_catch
      (let* rows := query st READ_SCHEMA_SQL []
                      (merge_sort schema_order (column_rows st)) in
       let* schema := (schema_loop [] rows, []) in
       ret (Found (SchemaContent schema)))
      (fun _ => ret (Found (SchemaContent [])))
  else if bool_decide (resourceName request = "tables") then
    let id := match resourceId request with
              | Some s => Text s
              | None => Null
              end in
    try_catch
      (let* rows := query st READ_TABLE_SQL [id]
                      (List.filter (fun m => equals (tm_table_name m) id)
                         (table_rows st)) in
       match rows with
       | [] => ret (Error "Table not found")
       | row :: _ => ret (Found (TableContent (schema_table_of row)))
       end)
      (fun message => ret (Error message))
  else if bool_decide (resourceName request = "columns") then
    try_catch
      (let* parts := match resourceId request with
                     | Some s => ret (split_dot s)
                     | None => throw SPLIT_OF_UNDEFINED
                     end in
       let tableName := element parts 0 in
       let columnName := element parts 1 in
       let* rows := query st READ_COLUMN_SQL [tableName; columnName]
                      (List.filter
                         (fun m => equals (cm_table_name m) tableName &&
                                   equals (cm_column_name m) columnName)
                         (column_rows st)) in
       match rows with
       | [] => ret (Error "Column not found")
       | row :: _ => ret (Found (ColumnContent (schema_column_of row)))
       end)
      (fun message => ret (Error message))
  else ret (Error "Resource not found").

End Handlers.

End Resources.

(** ** Vocabulary for statements about resources *)

(** No character of the string is a dot. *)
Fixpoint no_dot (s : string) : bool :=
  match s with
  | EmptyString => true
  | String a r => negb (Ascii.eqb a ".") && no_dot r
  end.

(** The part of a string before its first dot. *)
Fixpoint before_dot (s : string) : string :=
  match s with
  | EmptyString => EmptyString
  | String a r => if Ascii.eqb a "." then EmptyString else String a (before_dot r)
  end.

(** The entries of table [t] among [rows], in the order of [rows]. *)
Definition schema_group (rows : list ColumnMeta) (t : string)
    : list Resources.SchemaEntry :=
  map Resources.schema_entry (filter (fun r => cm_table_name r = t) rows).

Definition schema_grouped (rows : list ColumnMeta)
    : JsObject (list Resources.SchemaEntry) :=
  map (fun t => (t, schema_group rows t))
      (first_occurrences (map cm_table_name rows)).

Module Stores.

(** Byte-wise order of the first characters, enough to order the names
    below. *)
Definition by_first_character (a b : string) : bool :=
  match a, b with
  | EmptyString, _ => true
  | String _ _, EmptyString => false
  | String x _, String y _ => (nat_of_ascii x <=? nat_of_ascii y)%nat
  end.

Definition shop : Resources.Store :=
  {| Resources.rejects := fun _ => None;
     Resources.table_rows :=
       [ Examples.table "orders" (Some "Customer orders") None;
         Examples.table "customers" None None ];
     Resources.column_rows :=
       [ Examples.column "orders" "status" None;
         Examples.column "customers" "email" None;
         Examples.column "orders" "order_id" None;
         Examples.column "customers" "address.city" None ];
     Resources.collation := by_first_character |}.

Definition unreachable : Resources.Store :=
  {| Resources.rejects := fun _ => Some "Connection terminated unexpectedly";
     Resources.table_rows := Resources.table_rows shop;
     Resources.column_rows := Resources.column_rows shop;
     Resources.collation := by_first_character |}.

(** A store one of whose tables is named like a method of every object. *)
Definition with_constructor : Resources.Store :=
  {| Resources.rejects := fun _ => None;
     Resources.table_rows := Resources.table_rows shop;
     Resources.column_rows :=
       Examples.column "constructor" "id" None :: Resources.column_rows shop;
     Resources.collation := by_first_character |}.

End Stores.

(** ** Startup *)

(** The block that runs when the server starts: it connects, gives an
    embedding to the rows of [column_metadata] that have none, and listens.
    The store is a list of rows that the block updates; the history holds
    the calls to the embedding service. *)
Module Startup.

(** A row of [column_metadata] with its [id]. *)
Record StoredColumn := {
  id : Z;
  column : ColumnMeta
}.

(** What can go wrong outside the embedding service. *)
Record Boot := {
  (** [pgClient.connect()] rejects *)
  connect_error : option string;
  (** the query for the rows without an embedding is rejected *)
  select_error : option string;
  (** the UPDATE with these parameters is rejected, given the rows stored
      at that time *)
  update_error : list StoredColumn -> vector -> Z -> option string;
  (** creating the transport or [server.listen] throws *)
  listen_error : option string
}.

(** The process after the block: serving, or ended by [process.exit]. *)
Inductive Process :=
| Listening
| Exited (code : Z).

Record State := {
  rows : list StoredColumn;
  history : History
}.

Definition PENDING_SQL : string :=
  "SELECT id, table_name, column_name, description FROM column_metadata WHERE embedding IS NULL;".

Definition UPDATE_SQL : string :=
  "UPDATE column_metadata SET embedding = $1 WHERE id = $2;".

(** [WHERE embedding IS NULL] *)
Definition pending (stored : list StoredColumn) : list StoredColumn :=
  List.filter (fun r => match cm_embedding (column r) with
                        | None => true
                        | Some _ => false
                        end) stored.

(** [`Table: ${row.table_name}, Column: ${row.column_name}, Description:
    ${row.description}`] *)
Definition embedding_text (row : StoredColumn) : string :=
  "Table: " +:+ cm_table_name (column row) +:+
  ", Column: " +:+ cm_column_name (column row) +:+
  ", Description: " +:+ template_of (cm_description (column row)).

Definition with_embedding (m : ColumnMeta) (e : vector) : ColumnMeta :=
  {| cm_table_name := cm_table_name m;
     cm_column_name := cm_column_name m;
     cm_data_type := cm_data_type m;
     cm_description := cm_description m;
     cm_is_primary_key := cm_is_primary_key m;
     cm_is_foreign_key := cm_is_foreign_key m;
     cm_references_table := cm_references_table m;
     cm_references_column := cm_references_column m;
     cm_embedding := Some e |}.

(** [UPDATE column_metadata SET embedding = $1 WHERE id = $2] *)
Definition set_embedding (e : vector) (i : Z) (stored : list StoredColumn)
    : list StoredColumn :=
  map (fun r => if bool_decide (id r = i)
                then {| id := id r; column := with_embedding (column r) e |}
                else r) stored.

Section Block.

Variable w : World.
Variable b : Boot.

(** [for (const row of metadataResult.rows)] *)
Fixpoint backfill (todo : list StoredColumn) (s : State)
    : Completion unit * State :=
  match todo with
  | [] => (Normal tt, s)
  | row :: rest =>
      match generateEmbedding w (embedding_text row) (history s) with
      | (Normal (Some embedding), e) =>
          match update_error b (rows s) embedding (id row) with
          | Some msg =>
              (Throw msg, {| rows := rows s; history := history s ++ e |})
          | None =>
              backfill rest
                {| rows := set_embedding embedding (id row) (rows s);
                   history := history s ++ e |}
          end
      | (Normal None, e) =>
          backfill rest {| rows := rows s; history := history s ++ e |}
      | (Throw msg, e) =>
          (Throw msg, {| rows := rows s; history := history s ++ e |})
      end
  end.

(** The whole block. [initDatabase] ends the process itself when the
    connection fails; every other failure ends it in the block's
    [catch]. *)
Definition start (s : State) : Process * State :=
  match connect_error b with
  | Some _ => (Exited 1, s)
  | None =>
      match select_error b with
      | Some _ => (Exited 1, s)
      | None =>
          match backfill (pending (rows s)) s with
          | (Normal _, s') =>
              match listen_error b with
              | Some _ => (Exited 1, s')
              | None => (Listening, s')
              end
          | (Throw _, s') => (Exited 1, s')
          end
      end
  end.

End Block.

(** Nothing fails outside the embedding service. *)
Definition smooth : Boot :=
  {| connect_error := None;
     select_error := None;
     update_error := fun _ _ _ => None;
     listen_error := None |}.

(** Three stored columns, the last two without an embedding. *)
Definition stored_example : list StoredColumn :=
  [ {| id := 1; column := Examples.column "orders" "status" (Some [(1#2)%Q]) |};
    {| id := 2; column := Examples.column "customers" "email" None |};
    {| id := 3; column := Examples.column "customers" "phone" None |} ].

End Startup.

(** ** Counting calls *)

Definition is_CreateEmbedding (e : Event) : bool :=
  match e with CreateEmbedding _ => true | _ => false end.

(** The texts sent to the embedding service, in order. *)
Definition embedded_texts (e : list Event) : list string :=
  omap (fun ev => match ev with
                  | CreateEmbedding input => Some input
                  | _ => None
                  end) e.

(** The statements and parameters sent to the store, in order. *)
Definition store_queries (e : list Event) : list (string * list vector) :=
  omap (fun ev => match ev with
                  | PgQuery text values => Some (text, values)
                  | _ => None
                  end) e.

(** The envelope of the outermost [catch] of Index.js. *)
Definition Index_failure (message : string) : Index.Envelope :=
  {| Index.results := [];
     Index.similarColumns := None;
     Index.executedQuery := None;
     Index.error := Some message |}.

(** ** More environments *)

Module Scenarios.

(** The store rejects every query. *)
Definition store_down : World :=
  {| openai_createEmbedding := openai_createEmbedding Examples.healthy;
     pg_error := fun _ _ _ => Some "Connection terminated unexpectedly";
     table_metadata := table_metadata Examples.healthy;
     column_metadata := column_metadata Examples.healthy;
     pg_rows := pg_rows Examples.healthy;
     cosine_distance := Examples.first_coordinate;
     anthropic_messages_create := anthropic_messages_create Examples.healthy |}.

(** The store accepts the first query of a request and rejects the rest. *)
Definition store_drops_after_first : World :=
  {| openai_createEmbedding := openai_createEmbedding Examples.healthy;
     pg_error := fun h _ _ =>
       match h with
       | [] => None
       | _ => Some "Connection terminated unexpectedly"
       end;
     table_metadata := table_metadata Examples.healthy;
     column_metadata := column_metadata Examples.healthy;
     pg_rows := pg_rows Examples.healthy;
     cosine_distance := Examples.first_coordinate;
     anthropic_messages_create := anthropic_messages_create Examples.healthy |}.

(** The completion service is down. *)
Definition completion_outage : World :=
  {| openai_createEmbedding := openai_createEmbedding Examples.healthy;
     pg_error := pg_error Examples.healthy;
     table_metadata := table_metadata Examples.healthy;
     column_metadata := column_metadata Examples.healthy;
     pg_rows := pg_rows Examples.healthy;
     cosine_distance := Examples.first_coordinate;
     anthropic_messages_create := fun _ _ => Rejected "529 Overloaded" |}.

(** The store answers the metadata queries and refuses to read any table in
    full. *)
Definition permission_denied : World :=
  {| openai_createEmbedding := openai_createEmbedding Examples.healthy;
     pg_error := fun _ text _ =>
       if is_prefix "SELECT * FROM" text
       then Some "permission denied for table customers"
       else None;
     table_metadata := table_metadata Examples.healthy;
     column_metadata := column_metadata Examples.healthy;
     pg_rows := pg_rows Examples.healthy;
     cosine_distance := Examples.first_coordinate;
     anthropic_messages_create := anthropic_messages_create Examples.healthy |}.

(** The store as the server reaches it.  The ranking functions pass the
    embedding to [pgClient.query] as a JavaScript array; the driver writes
    an array parameter as the array literal [{1,0}], and the cast
    [$1::vector] accepts only the form [[1,0]].  A statement with such a
    parameter is rejected, any other is answered. *)
Definition array_parameter_rejected : World :=
  {| openai_createEmbedding := openai_createEmbedding Examples.healthy;
     pg_error := fun _ _ values =>
       match values with
       | [] => None
       | _ :: _ => Some "invalid input syntax for type vector"
       end;
     table_metadata := table_metadata Examples.healthy;
     column_metadata := column_metadata Examples.healthy;
     pg_rows := pg_rows Examples.healthy;
     cosine_distance := Examples.first_coordinate;
     anthropic_messages_create := anthropic_messages_create Examples.healthy |}.

(** A store that accepts the embedding.  One table is close to the query;
    five tables have no embedding, as rows of [table_metadata] have until
    someone fills them in (the startup block fills [column_metadata]
    only). *)
Definition unscored_tables : list TableMeta :=
  [ Examples.table "customers"
      (Some "Contains customer personal information") (Some [(1#100)%Q]);
    Examples.table "products" (Some "Stores product catalog information") None;
    Examples.table "orders" (Some "Records customer orders") None;
    Examples.table "order_items" (Some "Contains line items for each order")
      None;
    Examples.table "suppliers" None None;
    Examples.table "categories" None None ].

Definition unscored : World :=
  {| openai_createEmbedding := openai_createEmbedding Examples.healthy;
     pg_error := pg_error Examples.healthy;
     table_metadata := fun _ => unscored_tables;
     column_metadata := column_metadata Examples.healthy;
     pg_rows := pg_rows Examples.healthy;
     cosine_distance := Examples.first_coordinate;
     anthropic_messages_create := anthropic_messages_create Examples.healthy |}.

End Scenarios.

(** * Properties *)

(** ** Ordering *)

#[global] Instance similarity_desc_total : Total similarity_desc.
Proof.
  intros [a|] [b|]; simpl; auto.
  destruct (Qlt_le_dec a b) as [Hlt|Hle]; [right | left]; auto.
  apply Qlt_le_weak; exact Hlt.
Qed.

#[global] Instance similarity_desc_trans : Transitive similarity_desc.
Proof.
  intros [a|] [b|] [c|]; simpl; auto; try contradiction.
  intros Hba Hcb. eapply Qle_trans; eauto.
Qed.

Lemma similarity_desc_numbers (x y : option Q) (a b : Q) :
  similarity_desc x y -> x = Some a -> y = Some b -> (b <= a)%Q.
Proof. intros H -> ->. exact H. Qed.

Section Sorted.

Context {A : Type} (R : relation A).

Lemma StronglySorted_lookup (l : list A) (i j : nat) (a b : A) :
  StronglySorted R l -> (i < j)%nat ->
  l !! i = Some a -> l !! j = Some b -> R a b.
Proof.
  intros Hs. revert i j.
  induction Hs as [|x l Hs IH Hall]; intros i j Hij Hi Hj.
  - rewrite lookup_nil in Hi. discriminate.
  - destruct j as [|j]; [lia|]. simpl in Hj.
    destruct i as [|i]; simpl in Hi.
    + inversion Hi; subst.
      rewrite Forall_forall in Hall. apply Hall.
      apply list_elem_of_lookup. eauto.
    + apply (IH i j); auto. lia.
Qed.

Context `{!RelDecision R}.

Lemma insert_by_Permutation (x : A) (l : list A) :
  insert_by R x l ≡ₚ x :: l.
Proof.
  induction l as [|y r IH]; simpl; [reflexivity|].
  destruct (decide (R x y)); [reflexivity|].
  rewrite IH. apply Permutation_swap.
Qed.

Lemma order_by_Permutation (l : list A) : order_by R l ≡ₚ l.
Proof.
  induction l as [|x l IH]; [reflexivity|].
  change (order_by R (x :: l)) with (insert_by R x (order_by R l)).
  rewrite insert_by_Permutation, IH. reflexivity.
Qed.

(** Rows that are in order already are not moved. *)
Lemma order_by_sorted (l : list A) : StronglySorted R l -> order_by R l = l.
Proof.
  induction 1 as [|x l Hs IH Hall]; [reflexivity|].
  change (order_by R (x :: l)) with (insert_by R x (order_by R l)).
  rewrite IH. destruct Hall as [|y r Hxy _]; [reflexivity|].
  simpl. destruct (decide (R x y)); [reflexivity|contradiction].
Qed.

(** So the order of rows of equal key is not fixed by [order_by]: whichever
    ordered arrangement of the rows the store produces, it is the result
    for the relation listed that way. *)
Lemma order_by_any_tie_order {B} (f : B -> A) (c : list B) (s : list A) :
  s ≡ₚ map f c -> StronglySorted R s ->
  exists c', c' ≡ₚ c /\ order_by R (map f c') = s.
Proof.
  intros Hperm Hs.
  destruct (Permutation_map_inv f c Hperm) as (c' & -> & Hc).
  exists c'. split; [symmetry; exact Hc|]. apply order_by_sorted. exact Hs.
Qed.

Context `{!Total R, !Transitive R}.

Lemma insert_by_StronglySorted (x : A) (l : list A) :
  StronglySorted R l -> StronglySorted R (insert_by R x l).
Proof.
  induction 1 as [|y r Hs IH Hall]; simpl.
  - repeat constructor.
  - destruct (decide (R x y)) as [Hxy|Hxy].
    + constructor; [constructor; assumption|].
      constructor; [exact Hxy|].
      eapply Forall_impl; [exact Hall|].
      intros z Hyz. etransitivity; eauto.
    + constructor; [exact IH|].
      apply Forall_forall. intros z Hz.
      rewrite insert_by_Permutation in Hz.
      apply elem_of_cons in Hz as [->|Hz].
      * destruct (total R x y); [contradiction|assumption].
      * rewrite Forall_forall in Hall. apply Hall. exact Hz.
Qed.

Lemma order_by_StronglySorted (l : list A) : StronglySorted R (order_by R l).
Proof.
  induction l as [|x l IH]; [constructor|].
  change (order_by R (x :: l)) with (insert_by R x (order_by R l)).
  apply insert_by_StronglySorted. exact IH.
Qed.

(** [ORDER BY ... LIMIT k] keeps [min k n] of [n] rows, in order. *)
Lemma order_limit_length (k : nat) (l : list A) :
  length (take k (order_by R l)) = Nat.min k (length l).
Proof.
  rewrite length_take.
  rewrite (Permutation_length (order_by_Permutation l)). reflexivity.
Qed.

Lemma order_limit_sorted (k : nat) (l : list A) (i j : nat) (a b : A) :
  (i < j)%nat ->
  take k (order_by R l) !! i = Some a ->
  take k (order_by R l) !! j = Some b ->
  R a b.
Proof.
  intros Hij Hi Hj.
  apply lookup_take_Some in Hi as [Hi _].
  apply lookup_take_Some in Hj as [Hj _].
  eapply StronglySorted_lookup; eauto.
  apply order_by_StronglySorted.
Qed.

Lemma order_limit_elem_of (k : nat) (l : list A) (a : A) :
  a ∈ take k (order_by R l) -> a ∈ l.
Proof.
  intros Ha. apply subseteq_take in Ha.
  rewrite (order_by_Permutation l) in Ha. exact Ha.
Qed.

End Sorted.

#[global] Instance by_tr_similarity_total : Total by_tr_similarity.
Proof. intros a b. apply similarity_desc_total. Qed.

#[global] Instance by_tr_similarity_trans : Transitive by_tr_similarity.
Proof. intros a b c. apply similarity_desc_trans. Qed.

#[global] Instance by_similarity_total : Total by_similarity.
Proof. intros a b. apply similarity_desc_total. Qed.

#[global] Instance by_similarity_trans : Transitive by_similarity.
Proof. intros a b c. apply similarity_desc_trans. Qed.

#[global] Instance Index_by_similarity_total : Total Index.by_similarity.
Proof. intros a b. apply similarity_desc_total. Qed.

#[global] Instance Index_by_similarity_trans : Transitive Index.by_similarity.
Proof. intros a b c. apply similarity_desc_trans. Qed.

(** ** Retrieval, step by step *)

Section RetrievalFacts.

Variable w : World.

Lemma generateEmbedding_eq (text : string) (h : History) :
  generateEmbedding w text h =
  (Normal match openai_createEmbedding w h text with
          | Fulfilled e => Some e
          | Rejected _ => None
          end, [CreateEmbedding text]).
Proof.
  unfold generateEmbedding, try_catch, bind, await, ret.
  destruct (openai_createEmbedding w h text); reflexivity.
Qed.

Lemma findSimilarTables_eq (query : string) (h : History) :
  findSimilarTables w query h =
  ranked w RANK_TABLES_SQL
    (fun q h' => rank_tables (cosine_distance w) 5 q (table_metadata w h'))
    query h.
Proof.
  unfold findSimilarTables, try_catch, bind, ranked.
  rewrite generateEmbedding_eq.
  destruct (openai_createEmbedding w h query) as [q|msg]; [|reflexivity].
  unfold query_rank_tables, pg_query, await.
  destruct (pg_error w (h ++ [CreateEmbedding query]) RANK_TABLES_SQL [q]);
    reflexivity.
Qed.

Lemma findSimilarColumns_eq (query : string) (h : History) :
  findSimilarColumns w query h =
  ranked w RANK_COLUMNS_SQL
    (fun q h' => rank_columns (cosine_distance w) 10 q (column_metadata w h'))
    query h.
Proof.
  unfold findSimilarColumns, try_catch, bind, ranked.
  rewrite generateEmbedding_eq.
  destruct (openai_createEmbedding w h query) as [q|msg]; [|reflexivity].
  unfold query_rank_columns, pg_query, await.
  destruct (pg_error w (h ++ [CreateEmbedding query]) RANK_COLUMNS_SQL [q]);
    reflexivity.
Qed.

Lemma Index_findSimilarColumns_eq (query : string) (h : History) :
  Index.findSimilarColumns w query h =
  ranked w Index.RANK_COLUMNS_SQL
    (fun q h' =>
       Index.rank_columns (cosine_distance w) 5 q (column_metadata w h'))
    query h.
Proof.
  unfold Index.findSimilarColumns, try_catch, bind, ranked.
  rewrite generateEmbedding_eq.
  destruct (openai_createEmbedding w h query) as [q|msg]; [|reflexivity].
  unfold Index.query_rank_columns, pg_query, await.
  destruct (pg_error w (h ++ [CreateEmbedding query]) Index.RANK_COLUMNS_SQL [q]);
    reflexivity.
Qed.

Lemma ranked_normal {A} text (rows : vector -> History -> list A) query h :
  exists r e, ranked w text rows query h = (Normal r, e) /\
              Forall (fun ev => is_MessagesCreate ev = false) e /\
              In (CreateEmbedding query) e.
Proof.
  unfold ranked. destruct (openai_createEmbedding w h query) as [q|msg].
  - eexists _, _. split; [reflexivity|]. split.
    + repeat constructor.
    + left; reflexivity.
  - eexists _, _. split; [reflexivity|]. split.
    + repeat constructor.
    + left; reflexivity.
Qed.

Lemma getDatabaseSchema_normal (h : History) :
  exists s e, getDatabaseSchema w h = (Normal s, e) /\
              Forall (fun ev => is_MessagesCreate ev = false) e.
Proof.
  unfold getDatabaseSchema, try_catch, bind, query_schema_tables,
    query_schema_columns, pg_query, await, ret.
  destruct (pg_error w h SCHEMA_TABLES_SQL []).
  - eexists _, _. split; [reflexivity|]. repeat constructor.
  - destruct (pg_error w (h ++ [PgQuery SCHEMA_TABLES_SQL []])
                SCHEMA_COLUMNS_SQL []).
    + eexists _, _. split; [reflexivity|]. repeat constructor.
    + eexists _, _. split; [reflexivity|]. repeat constructor.
Qed.

End RetrievalFacts.

(** ** The similarity rankings *)

(** The tie order of the three rankings is the store's. *)
Lemma rank_tables_any_tie_order dist k q (c : list TableMeta) s :
  s ≡ₚ map (select_table_row dist q) c -> StronglySorted by_tr_similarity s ->
  exists c', c' ≡ₚ c /\ rank_tables dist k q c' = take k s.
Proof.
  intros Hperm Hs.
  destruct (order_by_any_tie_order by_tr_similarity _ c s Hperm Hs)
    as (c' & Hc & Heq).
  exists c'. split; [exact Hc|]. unfold rank_tables. rewrite Heq. reflexivity.
Qed.

Lemma rank_columns_any_tie_order dist k q (c : list ColumnMeta) s :
  s ≡ₚ map (select_column_row dist q) c -> StronglySorted by_similarity s ->
  exists c', c' ≡ₚ c /\ rank_columns dist k q c' = take k s.
Proof.
  intros Hperm Hs.
  destruct (order_by_any_tie_order by_similarity _ c s Hperm Hs)
    as (c' & Hc & Heq).
  exists c'. split; [exact Hc|]. unfold rank_columns. rewrite Heq. reflexivity.
Qed.

Lemma Index_rank_columns_any_tie_order dist k q (c : list ColumnMeta) s :
  s ≡ₚ map (Index.select_column_row dist q) c ->
  StronglySorted Index.by_similarity s ->
  exists c', c' ≡ₚ c /\ Index.rank_columns dist k q c' = take k s.
Proof.
  intros Hperm Hs.
  destruct (order_by_any_tie_order Index.by_similarity _ c s Hperm Hs)
    as (c' & Hc & Heq).
  exists c'. split; [exact Hc|].
  unfold Index.rank_columns. rewrite Heq. reflexivity.
Qed.

(** C2. The rankings do not return [min k n] rows in non-increasing
    similarity.
    - As the server sends it, the embedding is an array parameter, which
      the cast to [vector] rejects; the rejection is caught, and both
      rankings are empty although [table_metadata] holds two rows and
      [column_metadata] three.
    - Where the store does accept the parameter, [ORDER BY similarity DESC]
      puts the rows without an embedding first.  With five such tables and
      one table at similarity 99/100, the five rows returned have no
      similarity and the table at 99/100 is not among them; and the column
      ranking starts with a row that has no similarity, ahead of the rows
      at 3/4 and 1/2. *)
Theorem ranking_neither_ordered_nor_complete :
  (length (table_metadata Scenarios.array_parameter_rejected
             [CreateEmbedding "customer contact"]) = 2%nat /\
   completion (findSimilarTables Scenarios.array_parameter_rejected
                 "customer contact" []) = Normal [] /\
   length (column_metadata Scenarios.array_parameter_rejected
             [CreateEmbedding "customer contact"]) = 3%nat /\
   completion (findSimilarColumns Scenarios.array_parameter_rejected
                 "customer contact" []) = Normal []) /\
  (exists rows,
     completion (findSimilarTables Scenarios.unscored "customer contact" []) =
       Normal rows /\
     length rows = 5%nat /\
     Forall (fun r => tr_similarity r = None) rows /\
     Forall (fun r => tr_table_name r <> "customers") rows /\
     select_table_row (cosine_distance Scenarios.unscored) [1%Q; 0%Q]
       (Examples.table "customers"
          (Some "Contains customer personal information") (Some [(1#100)%Q]))
     = {| tr_table_name := "customers";
          tr_description := Some "Contains customer personal information";
          tr_similarity := Some (99 # 100) |}) /\
  completion (findSimilarColumns Scenarios.unscored "customer contact" []) =
    Normal [ Examples.ranked_column "customers" "phone" None;
             Examples.ranked_column "customers" "email" (Some (3 # 4));
             Examples.ranked_column "orders" "status" (Some (1 # 2)) ].
Proof.
  split; [|split].
  - repeat split; vm_compute; reflexivity.
  - eexists. split; [vm_compute; reflexivity|].
    split; [reflexivity|].
    split; [repeat constructor|].
    split; [repeat constructor; discriminate|].
    vm_compute. reflexivity.
  - vm_compute. reflexivity.
Qed.

(** C3. If the embedding of the query fails, or the relation that is ranked
    holds no row, [findSimilarTables] and [findSimilarColumns] (of both
    variants) complete normally with the empty array. *)
Theorem ranking_degrades_to_empty (w : World) (query : string) (h : History) :
  ((exists msg, openai_createEmbedding w h query = Rejected msg) \/
   table_metadata w (h ++ [CreateEmbedding query]) = [] ->
   completion (findSimilarTables w query h) = Normal []) /\
  ((exists msg, openai_createEmbedding w h query = Rejected msg) \/
   column_metadata w (h ++ [CreateEmbedding query]) = [] ->
   completion (findSimilarColumns w query h) = Normal [] /\
   completion (Index.findSimilarColumns w query h) = Normal []).
Proof.
  split.
  - intros H. rewrite findSimilarTables_eq. unfold ranked.
    destruct (openai_createEmbedding w h query) as [q|msg] eqn:E;
      [|reflexivity].
    destruct H as [[msg Hm]|Hempty]; [discriminate|].
    rewrite Hempty. simpl.
    destruct (pg_error w _ _ _); reflexivity.
  - intros H.
    rewrite findSimilarColumns_eq, Index_findSimilarColumns_eq. unfold ranked.
    destruct (openai_createEmbedding w h query) as [q|msg] eqn:E;
      [|split; reflexivity].
    destruct H as [[msg Hm]|Hempty]; [discriminate|].
    rewrite Hempty. simpl.
    split; destruct (pg_error w _ _ _); reflexivity.
Qed.

Lemma ranking_degrades_to_empty_witness :
  completion (findSimilarTables Examples.embedding_outage "orders" []) =
    Normal [] /\
  completion (findSimilarColumns Examples.embedding_outage "orders" []) =
    Normal [] /\
  completion (Index.findSimilarColumns Examples.embedding_outage "orders" []) =
    Normal [].
Proof.
  destruct (ranking_degrades_to_empty Examples.embedding_outage "orders" [])
    as [Ht Hc].
  split.
  - apply Ht. left. eexists. reflexivity.
  - apply Hc. left. eexists. reflexivity.
Defined.

(** ** The orchestrator, path by path *)

Section Orchestrator.

Variable w : World.

Lemma findSimilarTables_normal (query : string) (h : History) :
  exists r e, findSimilarTables w query h = (Normal r, e) /\
              no_completion_call e /\ In (CreateEmbedding query) e.
Proof. rewrite findSimilarTables_eq. apply ranked_normal. Qed.

Lemma findSimilarColumns_normal (query : string) (h : History) :
  exists r e, findSimilarColumns w query h = (Normal r, e) /\
              no_completion_call e /\ In (CreateEmbedding query) e.
Proof. rewrite findSimilarColumns_eq. apply ranked_normal. Qed.

Lemma Index_findSimilarColumns_normal (query : string) (h : History) :
  exists r e, Index.findSimilarColumns w query h = (Normal r, e) /\
              no_completion_call e /\ In (CreateEmbedding query) e.
Proof. rewrite Index_findSimilarColumns_eq. apply ranked_normal. Qed.

Lemma retrieval_total (query : string) (h : History) :
  exists schema e1 tabs e2 cols e3, retrieved w query h schema e1 tabs e2 cols e3.
Proof.
  destruct (getDatabaseSchema_normal w h) as (schema & e1 & Hs & _).
  destruct (findSimilarTables_normal query (h ++ e1)) as (tabs & e2 & Ht & _).
  destruct (findSimilarColumns_normal query ((h ++ e1) ++ e2))
    as (cols & e3 & Hc & _).
  exists schema, e1, tabs, e2, cols, e3. repeat split; assumption.
Qed.

Lemma retrieved_calls query h schema e1 tabs e2 cols e3 :
  retrieved w query h schema e1 tabs e2 cols e3 ->
  no_completion_call (e1 ++ e2 ++ e3) /\
  In (CreateEmbedding query) e2 /\ In (CreateEmbedding query) e3.
Proof.
  intros (Hs & Ht & Hc).
  destruct (getDatabaseSchema_normal w h) as (? & ? & Hs' & F1).
  destruct (findSimilarTables_normal query (h ++ e1))
    as (? & ? & Ht' & F2 & I2).
  destruct (findSimilarColumns_normal query ((h ++ e1) ++ e2))
    as (? & ? & Hc' & F3 & I3).
  rewrite Hs in Hs'. rewrite Ht in Ht'. rewrite Hc in Hc'.
  injection Hs' as <- <-. injection Ht' as <- <-. injection Hc' as <- <-.
  split; [|split; assumption].
  unfold no_completion_call. rewrite !Forall_app. auto.
Qed.

(** A supplied statement goes to the store as it is. *)
Lemma semanticSQLExecute_direct query statement h schema e1 tabs e2 cols e3 :
  statement_supplied (Some statement) = true ->
  retrieved w query h schema e1 tabs e2 cols e3 ->
  semanticSQLExecute w query (Some statement) h =
  (Normal match pg_error w (((h ++ e1) ++ e2) ++ e3) statement [] with
          | None =>
              {| results := pg_rows w (((h ++ e1) ++ e2) ++ e3) statement;
                 similarTables := Some tabs;
                 similarColumns := Some cols;
                 executedQuery := Some statement;
                 error := None;
                 generatedQuery := None |}
          | Some message => failure message
          end,
   e1 ++ e2 ++ e3 ++ [PgQuery statement []]).
Proof.
  intros Hsup (Hs & Ht & Hc).
  unfold semanticSQLExecute, try_catch, bind.
  rewrite Hs, Ht, Hc, Hsup.
  unfold query_statement, pg_query, await, ret, failure.
  destruct (pg_error w (((h ++ e1) ++ e2) ++ e3) statement []);
    simpl; rewrite ?app_nil_r; reflexivity.
Qed.

(** Without a supplied statement and without a ranked column nothing more
    is called. *)
Lemma semanticSQLExecute_no_columns query sqlStatement h schema e1 tabs e2 e3 :
  statement_supplied sqlStatement = false ->
  retrieved w query h schema e1 tabs e2 [] e3 ->
  semanticSQLExecute w query sqlStatement h =
  (Normal {| results := [];
             similarTables := Some tabs;
             similarColumns := Some [];
             executedQuery := None;
             error := Some "Could not determine which data to query.";
             generatedQuery := None |},
   e1 ++ e2 ++ e3).
Proof.
  intros Hsup (Hs & Ht & Hc).
  unfold semanticSQLExecute, try_catch, bind.
  rewrite Hs, Ht, Hc.
  destruct sqlStatement as [statement|]; [rewrite Hsup|];
    simpl; rewrite ?app_nil_r; reflexivity.
Qed.

(** Without a supplied statement the ranked columns go to the synthesizer
    and its answer goes to the store. *)
Lemma semanticSQLExecute_generated query sqlStatement h schema e1 tabs e2
    cols e3 :
  statement_supplied sqlStatement = false ->
  cols <> [] ->
  retrieved w query h schema e1 tabs e2 cols e3 ->
  semanticSQLExecute w query sqlStatement h =
  match generateSQLWithClaude w query tabs cols schema
          (((h ++ e1) ++ e2) ++ e3) with
  | (Normal generatedSQL, e4) =>
      (Normal match pg_error w ((((h ++ e1) ++ e2) ++ e3) ++ e4)
                      generatedSQL [] with
              | None =>
                  {| results :=
                       pg_rows w ((((h ++ e1) ++ e2) ++ e3) ++ e4) generatedSQL;
                     similarTables := Some tabs;
                     similarColumns := Some cols;
                     executedQuery := Some generatedSQL;
                     error := None;
                     generatedQuery := None |}
              | Some message =>
                  {| results := [];
                     similarTables := Some tabs;
                     similarColumns := Some cols;
                     executedQuery := None;
                     error :=
                       Some ("Error executing generated SQL: " +:+ message);
                     generatedQuery := Some generatedSQL |}
              end,
       e1 ++ e2 ++ e3 ++ e4 ++ [PgQuery generatedSQL []])
  | (Throw message, e4) => (Normal (failure message), e1 ++ e2 ++ e3 ++ e4)
  end.
Proof.
  intros Hsup Hne (Hs & Ht & Hc).
  unfold semanticSQLExecute, try_catch, bind.
  rewrite Hs, Ht, Hc.
  assert ((0 <? length cols)%nat = true) as Hlen
    by (destruct cols; [congruence | reflexivity]).
  destruct sqlStatement as [statement|]; [rewrite Hsup|]; rewrite Hlen;
    unfold bind, try_catch;
    (destruct (generateSQLWithClaude w query tabs cols schema
                 (((h ++ e1) ++ e2) ++ e3)) as [[sql|msg] e4];
     [ unfold query_statement, pg_query, await, ret;
       destruct (pg_error w ((((h ++ e1) ++ e2) ++ e3) ++ e4) sql []);
       simpl; rewrite ?app_nil_r; reflexivity
     | simpl; rewrite ?app_nil_r; reflexivity ]).
Qed.

(** [semanticSQLExecute] never throws: it always resolves to an envelope. *)
Lemma semanticSQLExecute_total query sqlStatement h :
  exists envelope e,
    semanticSQLExecute w query sqlStatement h = (Normal envelope, e).
Proof.
  destruct (retrieval_total query h)
    as (schema & e1 & tabs & e2 & cols & e3 & Hr).
  destruct (statement_supplied sqlStatement) eqn:Hsup.
  - destruct sqlStatement as [statement|]; [|discriminate].
    rewrite (semanticSQLExecute_direct _ _ _ _ _ _ _ _ _ Hsup Hr). eauto.
  - destruct cols as [|c cols].
    + rewrite (semanticSQLExecute_no_columns _ _ _ _ _ _ _ _ Hsup Hr). eauto.
    + assert (c :: cols <> []) as Hne by discriminate.
      rewrite (semanticSQLExecute_generated _ _ _ _ _ _ _ _ _ Hsup Hne Hr).
      destruct (generateSQLWithClaude _ _ _ _ _ _) as [[sql|msg] e4]; eauto.
Qed.

End Orchestrator.

(** ** Blank statements *)

Lemma trim_start_all_space (s : string) :
  all_space s = true -> trim_start s = "".
Proof.
  induction s as [|a r IH]; simpl; [reflexivity|].
  destruct (is_js_space a); simpl; [exact IH | discriminate].
Qed.

Lemma trim_start_not_all_space (s : string) :
  all_space s = false ->
  exists a r, trim_start s = String a r /\ is_js_space a = false.
Proof.
  induction s as [|a r IH]; simpl; [discriminate|].
  destruct (is_js_space a) eqn:Ha; simpl; [exact IH|].
  intros _. exists a, r. rewrite Ha. auto.
Qed.

Lemma trim_end_starts_non_space (a : ascii) (r : string) :
  is_js_space a = false -> exists r', trim_end (String a r) = String a r'.
Proof.
  intros Ha. simpl. destruct (trim_end r); rewrite ?Ha; eauto.
Qed.

(** A statement counts as supplied exactly when it holds a character that
    is not white space. *)
Lemma statement_supplied_not_blank (s : string) :
  statement_supplied (Some s) = negb (all_space s).
Proof.
  unfold statement_supplied, trim.
  destruct (all_space s) eqn:Hs.
  - rewrite (trim_start_all_space s Hs). simpl. apply andb_false_r.
  - destruct (trim_start_not_all_space s Hs) as (a & r & Hts & Ha).
    rewrite Hts. destruct (trim_end_starts_non_space a r Ha) as [r' ->].
    destruct s; [discriminate | reflexivity].
Qed.

Lemma no_completion_call_forallb (e : list Event) :
  no_completion_call e <->
  forallb (fun ev => negb (is_MessagesCreate ev)) e = true.
Proof.
  unfold no_completion_call. rewrite forallb_forall, Forall_forall.
  split; intros H x Hx.
  - apply list_elem_of_In in Hx. rewrite (H x Hx). reflexivity.
  - apply list_elem_of_In in Hx. apply H in Hx.
    destruct (is_MessagesCreate x); [discriminate | reflexivity].
Qed.

(** ** The direct statement path *)

(** C4, as stated, fails: a statement of white space only is not empty, yet
    the completion service is called and the store receives the generated
    statement. *)
Lemma nonempty_statement_may_be_synthesized :
  ~ (forall (w : World) (query statement : string) (h : History),
       statement <> "" ->
       no_completion_call
         (calls (semanticSQLExecute w query (Some statement) h)) /\
       exists earlier,
         calls (semanticSQLExecute w query (Some statement) h) =
         earlier ++ [PgQuery statement []]).
Proof.
  intros H.
  destruct (H Examples.healthy "show me all customers" " " [])
    as [Hno _]; [discriminate|].
  apply no_completion_call_forallb in Hno.
  vm_compute in Hno. discriminate.
Qed.

(** C4, amended. When the supplied statement holds a character that is not
    white space: the two rankings run (each asks for the embedding of the
    query), the completion service is not called, the only call after
    retrieval is the store's, with exactly the supplied statement, and when
    the store accepts it the envelope carries the rows, both rankings and
    the supplied statement as [executedQuery]. *)
Theorem direct_statement_bypasses_synthesis
    (w : World) (query statement : string) (h : History)
    (schema : DatabaseSchema) (tabs : list TableRow) (cols : list ColumnRow)
    (e1 e2 e3 : list Event) :
  all_space statement = false ->
  retrieved w query h schema e1 tabs e2 cols e3 ->
  calls (semanticSQLExecute w query (Some statement) h) =
    e1 ++ e2 ++ e3 ++ [PgQuery statement []] /\
  In (CreateEmbedding query) e2 /\
  In (CreateEmbedding query) e3 /\
  no_completion_call (calls (semanticSQLExecute w query (Some statement) h)) /\
  (pg_error w (((h ++ e1) ++ e2) ++ e3) statement [] = None ->
   completion (semanticSQLExecute w query (Some statement) h) =
   Normal {| results := pg_rows w (((h ++ e1) ++ e2) ++ e3) statement;
             similarTables := Some tabs;
             similarColumns := Some cols;
             executedQuery := Some statement;
             error := None;
             generatedQuery := None |}).
Proof.
  intros Hblank Hr.
  assert (statement_supplied (Some statement) = true) as Hsup
    by (rewrite statement_supplied_not_blank, Hblank; reflexivity).
  rewrite (semanticSQLExecute_direct w _ _ _ _ _ _ _ _ _ Hsup Hr).
  destruct (retrieved_calls w _ _ _ _ _ _ _ _ Hr) as (Hno & I2 & I3).
  unfold calls, completion; simpl.
  split; [reflexivity|]. split; [exact I2|]. split; [exact I3|]. split.
  - unfold no_completion_call in *. rewrite !Forall_app in *.
    destruct Hno as (F1 & F2 & F3). repeat split; auto.
  - intros ->. reflexivity.
Qed.

Lemma direct_statement_bypasses_synthesis_witness :
  exists earlier,
    calls (semanticSQLExecute Examples.healthy "expensive products"
             (Some "SELECT product_name FROM products WHERE price > 100;") []) =
    earlier ++
      [PgQuery "SELECT product_name FROM products WHERE price > 100;" []] /\
    no_completion_call earlier.
Proof.
  eexists.
  edestruct (direct_statement_bypasses_synthesis Examples.healthy
               "expensive products"
               "SELECT product_name FROM products WHERE price > 100;" [])
    as (Hcalls & _ & _ & Hno & _).
  - reflexivity.
  - unfold retrieved. split; [reflexivity|]. split; reflexivity.
  - split.
    + rewrite Hcalls. rewrite !app_assoc. reflexivity.
    + rewrite Hcalls in Hno. unfold no_completion_call in *.
      rewrite !app_assoc in Hno. apply Forall_app in Hno as [Hno _].
      exact Hno.
Defined.

(** ** No ranked column *)

(** C5. Without a supplied statement, when the column ranking returns no
    column, the request resolves to the envelope with the message
    [Could not determine which data to query.], and the calls of the
    request are those of retrieval: the completion service is not called. *)
Theorem no_columns_no_synthesis
    (w : World) (query : string) (sqlStatement : option string) (h : History)
    (schema : DatabaseSchema) (tabs : list TableRow) (e1 e2 e3 : list Event) :
  statement_supplied sqlStatement = false ->
  retrieved w query h schema e1 tabs e2 [] e3 ->
  completion (semanticSQLExecute w query sqlStatement h) =
    Normal {| results := [];
              similarTables := Some tabs;
              similarColumns := Some [];
              executedQuery := None;
              error := Some "Could not determine which data to query.";
              generatedQuery := None |} /\
  calls (semanticSQLExecute w query sqlStatement h) = e1 ++ e2 ++ e3 /\
  no_completion_call (calls (semanticSQLExecute w query sqlStatement h)).
Proof.
  intros Hsup Hr.
  rewrite (semanticSQLExecute_no_columns w _ _ _ _ _ _ _ _ Hsup Hr).
  destruct (retrieved_calls w _ _ _ _ _ _ _ _ Hr) as (Hno & _).
  unfold calls, completion; simpl. auto.
Qed.

Lemma no_columns_no_synthesis_witness :
  completion (semanticSQLExecute Examples.embedding_outage
                "show me all customers" None []) =
    Normal {| results := [];
              similarTables := Some [];
              similarColumns := Some [];
              executedQuery := None;
              error := Some "Could not determine which data to query.";
              generatedQuery := None |} /\
  no_completion_call
    (calls (semanticSQLExecute Examples.embedding_outage
              "show me all customers" None [])).
Proof.
  edestruct (no_columns_no_synthesis Examples.embedding_outage
               "show me all customers" None [])
    as (Hc & _ & Hno).
  - reflexivity.
  - unfold retrieved. split; [reflexivity|]. split; reflexivity.
  - split; [exact Hc | exact Hno].
Defined.

(** ** Statements that change data *)

(** C1. No statement is inspected before it goes to the store. A supplied
    [DROP TABLE], and a supplied pair of statements, is the last call of the
    request in every environment; a [DELETE] that the completion service
    answers with is executed and reported as [executedQuery]. *)
Theorem destructive_statement_reaches_store :
  (forall (w : World) (query statement : string) (h : History),
     statement ∈ ["DROP TABLE customers;"; "SELECT 1; DROP TABLE customers;"] ->
     exists earlier,
       calls (semanticSQLExecute w query (Some statement) h) =
       earlier ++ [PgQuery statement []]) /\
  (exists earlier rows tabs cols,
     semanticSQLExecute Examples.destructive_completion
       "remove all orders" None [] =
     (Normal {| results := rows;
                similarTables := tabs;
                similarColumns := cols;
                executedQuery := Some "DELETE FROM orders;";
                error := None;
                generatedQuery := None |},
      earlier ++ [PgQuery "DELETE FROM orders;" []])).
Proof.
  split.
  - intros w query statement h Hin.
    assert (statement_supplied (Some statement) = true) as Hsup.
    { repeat (apply elem_of_cons in Hin as [->|Hin]; [reflexivity|]).
      apply elem_of_nil in Hin. contradiction. }
    destruct (retrieval_total w query h)
      as (schema & e1 & tabs & e2 & cols & e3 & Hr).
    rewrite (semanticSQLExecute_direct w _ _ _ _ _ _ _ _ _ Hsup Hr).
    exists (e1 ++ e2 ++ e3). unfold calls; simpl.
    rewrite <- !app_assoc. reflexivity.
  - eexists (_ :: _ :: _ :: _ :: _ :: _ :: [_]), _, _, _.
    vm_compute. reflexivity.
Qed.

Lemma destructive_statement_reaches_store_witness :
  exists earlier,
    calls (semanticSQLExecute Examples.healthy "tidy up"
             (Some "DROP TABLE customers;") []) =
    earlier ++ [PgQuery "DROP TABLE customers;" []].
Proof.
  apply (proj1 destructive_statement_reaches_store).
  apply elem_of_cons. left. reflexivity.
Defined.

(** ** A statement the store rejects *)

(** C9. When the store rejects a supplied statement, the envelope holds the
    store's message and nothing else: neither the statement nor the
    rankings. When it rejects a generated statement, the envelope holds the
    message, the statement and the rankings. *)
Theorem rejected_direct_statement_is_not_reported :
  completion (semanticSQLExecute Examples.strict_store
                "one" (Some "SELEC 1") []) =
    Normal {| results := [];
              similarTables := None;
              similarColumns := None;
              executedQuery := None;
              error := Some Examples.SYNTAX_ERROR;
              generatedQuery := None |} /\
  exists tabs cols,
    completion (semanticSQLExecute Examples.strict_store "one" None []) =
    Normal {| results := [];
              similarTables := Some tabs;
              similarColumns := Some cols;
              executedQuery := None;
              error := Some ("Error executing generated SQL: " +:+
                             Examples.SYNTAX_ERROR);
              generatedQuery := Some "SELEC 1" |}.
Proof.
  split; [vm_compute; reflexivity|].
  eexists _, _. vm_compute. reflexivity.
Qed.

(** In every environment, a rejected supplied statement leaves only the
    store's message in the envelope. *)
Lemma rejected_direct_statement (w : World) (query statement : string)
    (h : History) schema e1 tabs e2 cols e3 (message : string) :
  all_space statement = false ->
  retrieved w query h schema e1 tabs e2 cols e3 ->
  pg_error w (((h ++ e1) ++ e2) ++ e3) statement [] = Some message ->
  completion (semanticSQLExecute w query (Some statement) h) =
  Normal (failure message).
Proof.
  intros Hblank Hr Herr.
  assert (statement_supplied (Some statement) = true) as Hsup
    by (rewrite statement_supplied_not_blank, Hblank; reflexivity).
  rewrite (semanticSQLExecute_direct w _ _ _ _ _ _ _ _ _ Hsup Hr), Herr.
  reflexivity.
Qed.

(** ** The variant without a language model *)

(** C10. In Index.js, without a supplied statement and with at least one
    ranked column, the one call after the ranking is the store's, with the
    statement [SELECT * FROM <t> LIMIT 10;] where [<t>] is the table of the
    first ranked column; when the store accepts it, that text is the
    [executedQuery] of the envelope. *)
Theorem Index_statement_from_top_column
    (w : World) (query : string) (sqlStatement : option string) (h : History)
    (topColumn : Index.ColumnRow) (others : list Index.ColumnRow)
    (e1 : list Event) :
  statement_supplied sqlStatement = false ->
  Index.findSimilarColumns w query h = (Normal (topColumn :: others), e1) ->
  calls (Index.semanticSQLExecute w query sqlStatement h) =
    e1 ++ [PgQuery ("SELECT * FROM " +:+ Index.table_name topColumn +:+
                    " LIMIT 10;") []] /\
  (pg_error w (h ++ e1)
     ("SELECT * FROM " +:+ Index.table_name topColumn +:+ " LIMIT 10;") [] =
   None ->
   completion (Index.semanticSQLExecute w query sqlStatement h) =
   Normal {| Index.results :=
               pg_rows w (h ++ e1)
                 ("SELECT * FROM " +:+ Index.table_name topColumn +:+
                  " LIMIT 10;");
             Index.similarColumns := Some (topColumn :: others);
             Index.executedQuery :=
               Some ("SELECT * FROM " +:+ Index.table_name topColumn +:+
                     " LIMIT 10;");
             Index.error := None |}).
Proof.
  intros Hsup Hc.
  unfold Index.semanticSQLExecute, try_catch, bind.
  rewrite Hc.
  destruct sqlStatement as [statement|]; [rewrite Hsup|];
    unfold bind, query_statement, pg_query, await, ret;
    (destruct (pg_error w (h ++ e1)
                 ("SELECT * FROM " +:+ Index.table_name topColumn +:+
                  " LIMIT 10;") []) eqn:E;
     unfold calls, completion; simpl; rewrite ?app_nil_r;
     (split; [reflexivity | intros; congruence])).
Qed.

Lemma Index_statement_from_top_column_witness :
  exists earlier,
    calls (Index.semanticSQLExecute Examples.healthy "customer phone" None []) =
    earlier ++ [PgQuery "SELECT * FROM customers LIMIT 10;" []].
Proof.
  eexists.
  edestruct (Index_statement_from_top_column Examples.healthy
               "customer phone" None []) as (Hcalls & _).
  - reflexivity.
  - vm_compute. reflexivity.
  - rewrite Hcalls. reflexivity.
Defined.

(** ** The assembler *)

Lemma first_occurrences_snoc (l : list string) (x : string) :
  first_occurrences (l ++ [x]) = note_first (first_occurrences l) x.
Proof. unfold first_occurrences. rewrite foldl_app. reflexivity. Qed.

Lemma elem_of_first_occurrences (l : list string) (t : string) :
  t ∈ first_occurrences l <-> t ∈ l.
Proof.
  induction l as [|x l IH] using rev_ind.
  - reflexivity.
  - rewrite first_occurrences_snoc. unfold note_first.
    rewrite elem_of_app, list_elem_of_singleton.
    case_bool_decide as Hx.
    + rewrite IH. split; [auto|]. intros [H| ->]; [exact H|].
      apply IH. exact Hx.
    + rewrite elem_of_app, list_elem_of_singleton, IH. reflexivity.
Qed.

Lemma NoDup_first_occurrences (l : list string) : NoDup (first_occurrences l).
Proof.
  induction l as [|x l IH] using rev_ind.
  - constructor.
  - rewrite first_occurrences_snoc. unfold note_first.
    case_bool_decide as Hx; [exact IH|].
    apply NoDup_app. split; [exact IH|]. split.
    + intros y Hy Hyx. apply list_elem_of_singleton in Hyx. subst. auto.
    + apply NoDup_singleton.
Qed.

Section Tabulated.

Context {V : Type} (f : string -> V).

Lemma own_property_tabulate (ks : list string) (k : string) :
  own_property (map (fun t => (t, f t)) ks) k =
  if bool_decide (k ∈ ks) then Some (f k) else None.
Proof.
  induction ks as [|t ks IH]; simpl.
  - reflexivity.
  - destruct (decide (t = k)) as [->|Hne].
    + rewrite (bool_decide_eq_true_2 (k = k)) by reflexivity.
      rewrite (bool_decide_eq_true_2 (k ∈ k :: ks))
        by apply list_elem_of_here.
      reflexivity.
    + rewrite (bool_decide_eq_false_2 (t = k)) by exact Hne.
      rewrite IH.
      rewrite (bool_decide_ext (k ∈ t :: ks) (k ∈ ks)); [reflexivity|].
      rewrite elem_of_cons. split; [|auto]. intros [->|]; [congruence|auto].
Qed.

Lemma update_own_tabulate (ks : list string) (k : string) (v : V) :
  NoDup ks ->
  update_own (map (fun t => (t, f t)) ks) k v =
  map (fun t => (t, if bool_decide (t = k) then v else f t)) ks.
Proof.
  induction 1 as [|t ks Hnotin Hnd IH]; simpl.
  - reflexivity.
  - case_bool_decide as Ht.
    + subst. f_equal. apply map_ext_in. intros t Hin.
      rewrite bool_decide_eq_false_2; [reflexivity|].
      intros ->. apply Hnotin. apply list_elem_of_In. exact Hin.
    + rewrite IH. reflexivity.
Qed.

Lemma own_property_app_new (o : JsObject V) (k : string) (v : V) :
  own_property o k = None -> own_property (o ++ [(k, v)]) k = Some v.
Proof.
  induction o as [|[k' v'] o IH]; simpl.
  - rewrite bool_decide_eq_true_2; reflexivity.
  - case_bool_decide; [discriminate | exact IH].
Qed.

Lemma update_own_app_new (o : JsObject V) (k : string) (v v' : V) :
  own_property o k = None ->
  update_own (o ++ [(k, v)]) k v' = o ++ [(k, v')].
Proof.
  induction o as [|[k0 v0] o IH]; simpl.
  - rewrite bool_decide_eq_true_2; reflexivity.
  - case_bool_decide; [discriminate|]. intros H'. rewrite IH; auto.
Qed.

End Tabulated.

Section Assembler.

Variable databaseSchema : DatabaseSchema.

Lemma group_of_snoc (done : list ColumnRow) (c : ColumnRow) (t : string) :
  group_of databaseSchema (done ++ [c]) t =
  if bool_decide (table_name c = t)
  then push_column (group_of databaseSchema done t) (column_entry c)
  else group_of databaseSchema done t.
Proof.
  unfold group_of, push_column; simpl.
  rewrite filter_app, map_app, filter_cons, filter_nil.
  case_bool_decide as Ht.
  - rewrite decide_True by exact Ht. reflexivity.
  - rewrite decide_False by exact Ht. simpl. rewrite app_nil_r. reflexivity.
Qed.

Lemma group_of_fresh (done : list ColumnRow) (t : string) :
  t ∉ map table_name done ->
  group_of databaseSchema done t =
  {| rt_name := t; rt_columns := [];
     rt_description := description_of databaseSchema t |}.
Proof.
  intros Hnotin. unfold group_of. f_equal.
  induction done as [|c done IH]; [reflexivity|].
  rewrite filter_cons. simpl in Hnotin.
  rewrite not_elem_of_cons in Hnotin. destruct Hnotin as [Hne Hrest].
  rewrite decide_False by congruence. apply IH. exact Hrest.
Qed.

Lemma grouped_snoc (done : list ColumnRow) (c : ColumnRow) :
  grouped databaseSchema (done ++ [c]) =
  map (fun t => (t, group_of databaseSchema (done ++ [c]) t))
      (note_first (first_occurrences (map table_name done)) (table_name c)).
Proof.
  unfold grouped. rewrite map_app. simpl.
  rewrite first_occurrences_snoc. reflexivity.
Qed.

Lemma own_property_grouped (done : list ColumnRow) (k : string) :
  own_property (grouped databaseSchema done) k =
  if bool_decide (k ∈ first_occurrences (map table_name done))
  then Some (group_of databaseSchema done k) else None.
Proof. unfold grouped. apply own_property_tabulate. Qed.

(** One iteration takes the grouping of the columns seen so far to the
    grouping with one column more. *)
Lemma relevantTables_step_grouped (done : list ColumnRow) (c : ColumnRow) :
  inherited_key (table_name c) = false ->
  relevantTables_step databaseSchema (grouped databaseSchema done) c =
  Normal (grouped databaseSchema (done ++ [c])).
Proof.
  intros Hplain.
  pose proof (own_property_grouped done (table_name c)) as Hown.
  rewrite grouped_snoc. unfold note_first.
  unfold relevantTables_step, get_property.
  destruct (decide (table_name c ∈ first_occurrences (map table_name done)))
    as [Hseen|Hseen].
  - rewrite (bool_decide_eq_true_2 _ Hseen) in *.
    rewrite Hown. rewrite Hown.
    unfold grouped.
    rewrite update_own_tabulate by apply NoDup_first_occurrences.
    f_equal. apply map_ext_in. intros t _.
    rewrite group_of_snoc.
    rewrite (bool_decide_ext (t = table_name c) (table_name c = t))
      by (split; congruence).
    case_bool_decide; subst; reflexivity.
  - rewrite (bool_decide_eq_false_2 _ Hseen) in *.
    rewrite Hown, Hplain.
    rewrite (own_property_app_new _ _ _ Hown).
    rewrite (update_own_app_new _ _ _ _ Hown).
    f_equal. rewrite map_app. simpl. f_equal.
    + unfold grouped. apply map_ext_in. intros t Hin.
      rewrite group_of_snoc. rewrite bool_decide_eq_false_2; [reflexivity|].
      intros <-. apply Hseen. apply list_elem_of_In. exact Hin.
    + rewrite group_of_snoc. rewrite bool_decide_eq_true_2 by reflexivity.
      rewrite group_of_fresh; [reflexivity|].
      intros Hin. apply Hseen. apply elem_of_first_occurrences. exact Hin.
Qed.

Lemma relevantTables_loop_grouped (done rest : list ColumnRow) :
  Forall (fun c => inherited_key (table_name c) = false) rest ->
  relevantTables_loop databaseSchema (grouped databaseSchema done) rest =
  Normal (grouped databaseSchema (done ++ rest)).
Proof.
  intros Hrest. revert done.
  induction Hrest as [|c rest Hc Hrest IH]; intros done; simpl.
  - rewrite app_nil_r. reflexivity.
  - rewrite (relevantTables_step_grouped done c Hc).
    rewrite IH. rewrite <- app_assoc. reflexivity.
Qed.

(** With no table named like a member of [Object.prototype], the loop
    completes and builds the grouping. *)
Lemma assemble_grouped (similarColumns : list ColumnRow) :
  Forall (fun c => inherited_key (table_name c) = false) similarColumns ->
  assemble similarColumns databaseSchema =
  Normal (grouped databaseSchema similarColumns).
Proof.
  intros H. unfold assemble.
  exact (relevantTables_loop_grouped [] similarColumns H).
Qed.

Lemma relevantTables_step_inherited (done : list ColumnRow) (c : ColumnRow) :
  Forall (fun c => inherited_key (table_name c) = false) done ->
  inherited_key (table_name c) = true ->
  relevantTables_step databaseSchema (grouped databaseSchema done) c =
  Throw PUSH_OF_UNDEFINED.
Proof.
  intros Hdone Hc.
  assert (own_property (grouped databaseSchema done) (table_name c) = None)
    as Hown.
  { rewrite own_property_grouped. rewrite bool_decide_eq_false_2; [reflexivity|].
    rewrite elem_of_first_occurrences. intros Hin.
    apply list_elem_of_fmap in Hin as (c' & Heq & Hc').
    rewrite Forall_forall in Hdone. specialize (Hdone c' Hc').
    congruence. }
  unfold relevantTables_step, get_property. rewrite Hown, Hc.
  cbv zeta iota beta. rewrite Hown. reflexivity.
Qed.

(** A table named like a member of [Object.prototype] stops the loop. *)
Lemma assemble_throws (similarColumns : list ColumnRow) :
  Exists (fun c => inherited_key (table_name c) = true) similarColumns ->
  assemble similarColumns databaseSchema = Throw PUSH_OF_UNDEFINED.
Proof.
  unfold assemble. change [] with (grouped databaseSchema []) at 1.
  assert (Forall (fun c => inherited_key (table_name c) = false)
            (@nil ColumnRow)) as Hdone by constructor.
  revert Hdone. generalize (@nil ColumnRow) as done.
  induction similarColumns as [|c rest IH]; intros done Hdone Hex.
  - inversion Hex.
  - simpl. destruct (inherited_key (table_name c)) eqn:Hc.
    + rewrite (relevantTables_step_inherited done c Hdone Hc). reflexivity.
    + rewrite (relevantTables_step_grouped done c Hc).
      apply IH.
      * apply Forall_app. split; [exact Hdone|]. repeat constructor. exact Hc.
      * inversion Hex; subst; [congruence | assumption].
Qed.

End Assembler.

(** ** The order of the tables in the context *)

Lemma object_values_ordinary {V} (o : JsObject V) :
  Forall (fun kv => array_index kv.1 = None) o ->
  object_values o = map snd o.
Proof.
  intros H. unfold object_values.
  assert (index_properties o = []) as ->.
  { unfold index_properties.
    induction H as [|kv o Hkv H IH]; [reflexivity|].
    simpl. rewrite Hkv. exact IH. }
  assert (named_properties o = o) as ->.
  { unfold named_properties.
    induction H as [|kv o Hkv H IH]; [reflexivity|].
    rewrite filter_cons, decide_True by exact Hkv. rewrite IH. reflexivity. }
  reflexivity.
Qed.

(** When every table name is an ordinary key, the tables of the context
    are the groups of the ranked columns, in the order in which each table
    first occurs in the ranking. *)
Lemma context_in_order_of_first_occurrence
    (databaseSchema : DatabaseSchema) (similarColumns : list ColumnRow) :
  Forall (fun c => ordinary_key (table_name c)) similarColumns ->
  exists o,
    assemble similarColumns databaseSchema = Normal o /\
    object_values o =
    map (group_of databaseSchema similarColumns)
        (first_occurrences (map table_name similarColumns)) /\
    schema_context o =
    join (NL +:+ NL)
      (map (fun t => render_table (group_of databaseSchema similarColumns t))
           (first_occurrences (map table_name similarColumns))).
Proof.
  intros H. exists (grouped databaseSchema similarColumns).
  assert (object_values (grouped databaseSchema similarColumns) =
          map (group_of databaseSchema similarColumns)
              (first_occurrences (map table_name similarColumns))) as Hvalues;
    [|split; [|split; [exact Hvalues|]]].
  3: { unfold schema_context. rewrite Hvalues, map_map. reflexivity. }
  2: { apply assemble_grouped. eapply Forall_impl; [exact H|].
       intros c [Hc _]. exact Hc. }
  - rewrite object_values_ordinary.
    + unfold grouped. rewrite map_map. reflexivity.
    + unfold grouped. rewrite Forall_forall. intros kv Hkv.
      apply list_elem_of_fmap in Hkv as (t & -> & Ht). simpl.
      rewrite elem_of_first_occurrences in Ht.
      apply list_elem_of_fmap in Ht as (c & -> & Hc).
      rewrite Forall_forall in H. destruct (H c Hc) as [_ Hidx]. exact Hidx.
Qed.

(** C6. Tables whose names are array indices are listed first, in numeric
    order, whatever their rank: for the ranking [orders, 2024, 2023] the
    context lists [2023, 2024, orders]. A table named like a member of
    [Object.prototype] stops the assembler with a [TypeError]. *)
Theorem integer_like_table_names_are_listed_first :
  first_occurrences (map table_name Examples.yearly) =
    ["orders"; "2024"; "2023"] /\
  (exists o,
     assemble Examples.yearly Examples.no_schema = Normal o /\
     map rt_name (object_values o) = ["2023"; "2024"; "orders"]) /\
  assemble [Examples.ranked_column "constructor" "id" None]
    Examples.no_schema = Throw PUSH_OF_UNDEFINED.
Proof.
  split; [reflexivity|]. split; [|reflexivity].
  eexists. split; [vm_compute; reflexivity|]. vm_compute. reflexivity.
Qed.

(** ** Columns ranked more than once *)

(** C7, as stated, fails: a column ranked twice is in its group twice. *)
Lemma duplicate_column_is_kept_twice :
  ~ (forall (databaseSchema : DatabaseSchema) (c : ColumnRow),
       exists o g,
         assemble [c; c] databaseSchema = Normal o /\
         own_property o (table_name c) = Some g /\
         length (filter (fun e => col_name e = column_name c) (rt_columns g)) =
         1%nat).
Proof.
  intros H.
  destruct (H Examples.no_schema
              (Examples.ranked_column "customers" "email" (Some (3 # 4))))
    as (o & g & Ho & Hg & Hlen).
  vm_compute in Ho. injection Ho as <-.
  vm_compute in Hg. injection Hg as <-.
  vm_compute in Hlen. discriminate.
Qed.

(** C7, amended. When no table is named like a member of
    [Object.prototype], the assembler completes, and the group of each
    table lists the ranked columns of that table in ranked order, once for
    each occurrence in the ranking. *)
Theorem assembler_keeps_every_occurrence
    (databaseSchema : DatabaseSchema) (similarColumns : list ColumnRow) :
  Forall (fun c => inherited_key (table_name c) = false) similarColumns ->
  exists o,
    assemble similarColumns databaseSchema = Normal o /\
    forall t, t ∈ map table_name similarColumns ->
      exists g,
        own_property o t = Some g /\
        rt_name g = t /\
        rt_columns g =
        map column_entry (filter (fun c => table_name c = t) similarColumns).
Proof.
  intros H. exists (grouped databaseSchema similarColumns). split.
  - apply assemble_grouped. exact H.
  - intros t Ht. exists (group_of databaseSchema similarColumns t).
    rewrite own_property_grouped.
    rewrite bool_decide_eq_true_2
      by (apply elem_of_first_occurrences; exact Ht).
    repeat split.
Qed.

Lemma assembler_keeps_every_occurrence_witness :
  exists o g,
    assemble Examples.twice Examples.no_schema = Normal o /\
    own_property o "customers" = Some g /\
    length (rt_columns g) = 2%nat.
Proof.
  destruct (assembler_keeps_every_occurrence Examples.no_schema Examples.twice)
    as (o & Ho & Hgroups).
  - repeat constructor.
  - destruct (Hgroups "customers") as (g & Hg & _ & Hcols).
    + apply list_elem_of_here.
    + exists o, g. split; [exact Ho|]. split; [exact Hg|].
      rewrite Hcols. reflexivity.
Defined.

(** ** What [trim] removes *)

Lemma app_String (a : ascii) (s t : string) :
  String a s +:+ t = String a (s +:+ t).
Proof. reflexivity. Qed.

Lemma app_empty (t : string) : "" +:+ t = t.
Proof. reflexivity. Qed.

Lemma trim_start_split (s : string) :
  exists pre, s = pre +:+ trim_start s /\ all_space pre = true.
Proof.
  induction s as [|a r (pre & Hr & Hpre)]; simpl.
  - exists "". auto.
  - destruct (is_js_space a) eqn:Ha.
    + exists (String a pre). split.
      * rewrite app_String. f_equal. exact Hr.
      * simpl. rewrite Ha. exact Hpre.
    + exists "". auto.
Qed.

Lemma trim_end_split (s : string) :
  exists post, s = trim_end s +:+ post /\ all_space post = true.
Proof.
  induction s as [|a r (post & Hr & Hpost)]; simpl.
  - exists "". auto.
  - destruct (trim_end r) as [|b r'] eqn:Hte.
    + rewrite app_empty in Hr. subst post.
      destruct (is_js_space a) eqn:Ha.
      * exists (String a r). split; [reflexivity|].
        simpl. rewrite Ha. exact Hpost.
      * exists r. auto.
    + exists post. split; [|exact Hpost].
      rewrite app_String. f_equal. exact Hr.
Qed.

Lemma trim_split (s : string) :
  exists pre post,
    s = pre +:+ trim s +:+ post /\
    all_space pre = true /\ all_space post = true.
Proof.
  destruct (trim_start_split s) as (pre & Hs & Hpre).
  destruct (trim_end_split (trim_start s)) as (post & Hm & Hpost).
  exists pre, post. unfold trim. rewrite <- Hm. auto.
Qed.

Section Markers.

(** A marker with no white space in it, such as a code fence. *)
Variable p : string.
Hypothesis p_no_space : no_space p = true.
Hypothesis p_not_empty : p <> "".

Lemma is_prefix_of_space (a : ascii) (s : string) :
  is_js_space a = true -> is_prefix p (String a s) = false.
Proof.
  intros Ha. destruct p as [|c p']; [congruence|].
  simpl in *. destruct (Ascii.eqb_spec c a) as [->|]; [|reflexivity].
  rewrite Ha in p_no_space. discriminate.
Qed.

Lemma includes_all_space (post : string) :
  all_space post = true -> includes p post = false.
Proof.
  induction post as [|a r IH]; simpl.
  - intros _. destruct p; [congruence | reflexivity].
  - intros [Ha Hr]%andb_prop.
    change (is_prefix p (String a r) || includes p r = false).
    rewrite (is_prefix_of_space a r Ha), (IH Hr). reflexivity.
Qed.

Lemma includes_after_space (pre s : string) :
  all_space pre = true -> includes p (pre +:+ s) = includes p s.
Proof.
  induction pre as [|a r IH]; [reflexivity|].
  simpl all_space. intros [Ha Hr]%andb_prop.
  change (is_prefix p (String a (r +:+ s)) || includes p (r +:+ s) =
          includes p s).
  rewrite (is_prefix_of_space a _ Ha), (IH Hr). reflexivity.
Qed.

End Markers.

Lemma is_prefix_before_space (p s post : string) :
  no_space p = true -> all_space post = true ->
  is_prefix p (s +:+ post) = is_prefix p s.
Proof.
  revert s. induction p as [|c p' IH]; intros s Hp Hpost; [reflexivity|].
  simpl in Hp. apply andb_prop in Hp as [Hc Hp'].
  destruct s as [|b s']; rewrite ?app_empty, ?app_String; simpl.
  - destruct post as [|d post']; [reflexivity|].
    simpl in Hpost. apply andb_prop in Hpost as [Hd _].
    destruct (Ascii.eqb_spec c d) as [->|]; [|reflexivity].
    rewrite Hd in Hc. discriminate.
  - destruct (Ascii.eqb c b); [|reflexivity]. apply IH; assumption.
Qed.

Lemma includes_before_space (p s post : string) :
  no_space p = true -> p <> "" -> all_space post = true ->
  includes p (s +:+ post) = includes p s.
Proof.
  intros Hp Hne Hpost. induction s as [|a r IH].
  - rewrite app_empty, (includes_all_space p Hp Hne post Hpost).
    simpl. destruct p; [congruence | reflexivity].
  - rewrite app_String.
    change (is_prefix p (String a (r +:+ post)) || includes p (r +:+ post) =
            is_prefix p (String a r) || includes p r).
    rewrite <- app_String.
    rewrite (is_prefix_before_space p (String a r) post Hp Hpost), IH.
    reflexivity.
Qed.

(** [trim] neither removes nor creates an occurrence of a marker. *)
Lemma includes_trim (p s : string) :
  no_space p = true -> p <> "" -> includes p (trim s) = includes p s.
Proof.
  intros Hp Hne.
  destruct (trim_split s) as (pre & post & Hs & Hpre & Hpost).
  rewrite Hs at 2.
  rewrite (includes_after_space p Hp Hne pre _ Hpre).
  rewrite (includes_before_space p _ post Hp Hne Hpost). reflexivity.
Qed.

(** ** The synthesizer *)

Lemma generateSQLWithClaude_eq (w : World) (userQuery : string)
    (tabs : list TableRow) (cols : list ColumnRow) (schema : DatabaseSchema)
    (h : History) (o : JsObject RelevantTable) :
  assemble cols schema = Normal o ->
  generateSQLWithClaude w userQuery tabs cols schema h =
  (match anthropic_messages_create w h (build_prompt userQuery o) with
   | Fulfilled text => Normal (trim text)
   | Rejected message => Throw ("Failed to generate SQL: " +:+ message)
   end,
   [MessagesCreate (build_prompt userQuery o)]).
Proof.
  intros Ho.
  unfold generateSQLWithClaude, try_catch, bind, lift, await, ret, throw.
  rewrite Ho. rewrite app_nil_r.
  destruct (anthropic_messages_create w h (build_prompt userQuery o));
    reflexivity.
Qed.

(** C8, as stated, fails: the fence markers of a fenced answer are part of
    the statement the synthesizer returns. *)
Lemma fenced_answer_keeps_its_fences :
  ~ (forall (w : World) (userQuery : string) (tabs : list TableRow)
            (cols : list ColumnRow) (schema : DatabaseSchema) (h : History)
            (o : JsObject RelevantTable) (text generatedSQL : string),
       assemble cols schema = Normal o ->
       anthropic_messages_create w h (build_prompt userQuery o) =
         Fulfilled text ->
       is_prefix "```" text = true ->
       completion (generateSQLWithClaude w userQuery tabs cols schema h) =
         Normal generatedSQL ->
       includes "```" generatedSQL = false).
Proof.
  intros H.
  specialize (H Examples.healthy "show me all customers" [] Examples.twice
                Examples.no_schema [] _ Examples.FENCED Examples.FENCED
                eq_refl eq_refl eq_refl eq_refl).
  vm_compute in H. discriminate.
Qed.

(** C8, amended. When the assembler completes and the completion service
    answers with [text], the synthesizer returns [text] without its leading
    and trailing white space, whatever [text] is: nothing else is removed,
    and a code fence occurs in the result exactly when it occurs in
    [text]. *)
Theorem synthesizer_only_trims
    (w : World) (userQuery : string) (tabs : list TableRow)
    (cols : list ColumnRow) (schema : DatabaseSchema) (h : History)
    (o : JsObject RelevantTable) (text : string) :
  assemble cols schema = Normal o ->
  anthropic_messages_create w h (build_prompt userQuery o) = Fulfilled text ->
  completion (generateSQLWithClaude w userQuery tabs cols schema h) =
    Normal (trim text) /\
  (exists pre post,
     text = pre +:+ trim text +:+ post /\
     all_space pre = true /\ all_space post = true) /\
  includes "```" (trim text) = includes "```" text.
Proof.
  intros Ho Htext.
  rewrite (generateSQLWithClaude_eq w userQuery tabs cols schema h o Ho), Htext.
  split; [reflexivity|]. split.
  - apply trim_split.
  - apply includes_trim; [reflexivity | discriminate].
Qed.

Lemma synthesizer_only_trims_witness :
  completion (generateSQLWithClaude Examples.healthy "show me all customers"
                [] Examples.twice Examples.no_schema []) =
    Normal Examples.FENCED /\
  includes "```" Examples.FENCED = true.
Proof.
  edestruct (synthesizer_only_trims Examples.healthy "show me all customers"
               [] Examples.twice Examples.no_schema [])
    as (Hc & _ & _).
  - reflexivity.
  - reflexivity.
  - split; [exact Hc | reflexivity].
Defined.

(** * Further properties of the retrieval functions *)

(** X1. When the store rejects the ranking query, each ranking function
    completes normally with the empty array, after one embedding call and
    the one rejected query, whose only parameter is the embedding. *)
Theorem ranking_empty_when_store_rejects
    (w : World) (query : string) (h : History) (q : vector) :
  openai_createEmbedding w h query = Fulfilled q ->
  (forall msg,
     pg_error w (h ++ [CreateEmbedding query]) RANK_TABLES_SQL [q] = Some msg ->
     findSimilarTables w query h =
     (Normal [], [CreateEmbedding query; PgQuery RANK_TABLES_SQL [q]])) /\
  (forall msg,
     pg_error w (h ++ [CreateEmbedding query]) RANK_COLUMNS_SQL [q] = Some msg ->
     findSimilarColumns w query h =
     (Normal [], [CreateEmbedding query; PgQuery RANK_COLUMNS_SQL [q]])) /\
  (forall msg,
     pg_error w (h ++ [CreateEmbedding query]) Index.RANK_COLUMNS_SQL [q] =
       Some msg ->
     Index.findSimilarColumns w query h =
     (Normal [], [CreateEmbedding query; PgQuery Index.RANK_COLUMNS_SQL [q]])).
Proof.
  intros Hq. repeat split; intros msg Hmsg.
  - rewrite findSimilarTables_eq. unfold ranked. rewrite Hq, Hmsg. reflexivity.
  - rewrite findSimilarColumns_eq. unfold ranked. rewrite Hq, Hmsg. reflexivity.
  - rewrite Index_findSimilarColumns_eq. unfold ranked. rewrite Hq, Hmsg.
    reflexivity.
Qed.

Lemma ranking_empty_when_store_rejects_witness :
  findSimilarTables Scenarios.store_down "orders" [] =
    (Normal [], [CreateEmbedding "orders"; PgQuery RANK_TABLES_SQL [[1%Q; 0%Q]]]) /\
  completion (findSimilarColumns Scenarios.store_down "orders" []) = Normal [].
Proof.
  destruct (ranking_empty_when_store_rejects Scenarios.store_down "orders" []
              [1%Q; 0%Q] eq_refl) as (Ht & Hc & _).
  split.
  - exact (Ht _ eq_refl).
  - rewrite (Hc _ eq_refl). reflexivity.
Defined.

(** X2. When the embedding of the query fails, no query is sent to the
    store: the one call of each ranking function is the embedding call. *)
Theorem ranking_skips_store_without_embedding
    (w : World) (query : string) (h : History) (msg : string) :
  openai_createEmbedding w h query = Rejected msg ->
  calls (findSimilarTables w query h) = [CreateEmbedding query] /\
  calls (findSimilarColumns w query h) = [CreateEmbedding query] /\
  calls (Index.findSimilarColumns w query h) = [CreateEmbedding query].
Proof.
  intros Hq.
  rewrite findSimilarTables_eq, findSimilarColumns_eq,
    Index_findSimilarColumns_eq.
  unfold ranked. rewrite Hq. repeat split.
Qed.

Lemma ranking_skips_store_without_embedding_witness :
  store_queries (calls (findSimilarTables Examples.embedding_outage
                          "orders" [])) = [] /\
  store_queries (calls (findSimilarColumns Examples.embedding_outage
                          "orders" [])) = [].
Proof.
  destruct (ranking_skips_store_without_embedding Examples.embedding_outage
              "orders" [] "503 Service Unavailable" eq_refl) as (Ht & Hc & _).
  rewrite Ht, Hc. split; reflexivity.
Defined.

(** * Further properties of [getDatabaseSchema] *)

(** X5. [getDatabaseSchema] is all or nothing. If the store rejects the
    first query the second is not sent; if it rejects the second, the
    tables already read are dropped; in both cases the result is the empty
    schema, not an error. Otherwise the schema holds every row of both
    relations, in stored order. *)
Theorem getDatabaseSchema_all_or_nothing (w : World) (h : History) :
  (forall msg,
     pg_error w h SCHEMA_TABLES_SQL [] = Some msg ->
     getDatabaseSchema w h =
     (Normal {| tables := []; columns := [] |},
      [PgQuery SCHEMA_TABLES_SQL []])) /\
  (pg_error w h SCHEMA_TABLES_SQL [] = None ->
   (forall msg,
      pg_error w (h ++ [PgQuery SCHEMA_TABLES_SQL []]) SCHEMA_COLUMNS_SQL [] =
        Some msg ->
      getDatabaseSchema w h =
      (Normal {| tables := []; columns := [] |},
       [PgQuery SCHEMA_TABLES_SQL []; PgQuery SCHEMA_COLUMNS_SQL []])) /\
   (pg_error w (h ++ [PgQuery SCHEMA_TABLES_SQL []]) SCHEMA_COLUMNS_SQL [] =
      None ->
    getDatabaseSchema w h =
    (Normal {| tables := map schema_table_of (table_metadata w h);
               columns :=
                 map schema_column_of
                   (column_metadata w (h ++ [PgQuery SCHEMA_TABLES_SQL []])) |},
     [PgQuery SCHEMA_TABLES_SQL []; PgQuery SCHEMA_COLUMNS_SQL []]))).
Proof.
  unfold getDatabaseSchema, try_catch, bind, query_schema_tables,
    query_schema_columns, pg_query, await, ret.
  split.
  - intros msg ->. reflexivity.
  - intros ->. split.
    + intros msg ->. reflexivity.
    + intros ->. reflexivity.
Qed.

Lemma getDatabaseSchema_all_or_nothing_witness :
  table_metadata Scenarios.store_drops_after_first [] <> [] /\
  getDatabaseSchema Scenarios.store_drops_after_first [] =
    (Normal {| tables := []; columns := [] |},
     [PgQuery SCHEMA_TABLES_SQL []; PgQuery SCHEMA_COLUMNS_SQL []]).
Proof.
  split; [discriminate|].
  destruct (getDatabaseSchema_all_or_nothing
              Scenarios.store_drops_after_first []) as [_ H].
  destruct (H eq_refl) as [Hdropped _].
  exact (Hdropped _ eq_refl).
Defined.

(** * Further properties of the synthesizer *)

Lemma string_app_assoc (a b c : string) : (a +:+ b) +:+ c = a +:+ b +:+ c.
Proof.
  induction a as [|x a IH]; [reflexivity|].
  rewrite !app_String, IH. reflexivity.
Qed.

Lemma is_prefix_app (p s : string) : is_prefix p (p +:+ s) = true.
Proof.
  induction p as [|a p IH]; [reflexivity|].
  rewrite app_String. simpl. rewrite Ascii.eqb_refl. exact IH.
Qed.

Lemma includes_prefix (p s : string) :
  is_prefix p s = true -> includes p s = true.
Proof. intros H. destruct s; simpl; rewrite H; reflexivity. Qed.

Lemma includes_infix (a p b : string) : includes p (a +:+ p +:+ b) = true.
Proof.
  induction a as [|x a IH].
  - rewrite app_empty. apply includes_prefix, is_prefix_app.
  - rewrite app_String.
    change (is_prefix p (String x (a +:+ p +:+ b)) ||
            includes p (a +:+ p +:+ b) = true).
    rewrite IH. apply orb_true_r.
Qed.

Lemma generateSQLWithClaude_throw_eq (w : World) (userQuery : string)
    (tabs : list TableRow) (cols : list ColumnRow) (schema : DatabaseSchema)
    (h : History) (message : string) :
  assemble cols schema = Throw message ->
  generateSQLWithClaude w userQuery tabs cols schema h =
  (Throw ("Failed to generate SQL: " +:+ message), []).
Proof.
  intros Ho.
  unfold generateSQLWithClaude, try_catch, bind, lift, throw.
  rewrite Ho. reflexivity.
Qed.

(** X6. [generateSQLWithClaude] calls the completion service at most once
    and nothing else, and whatever makes it fail, the message it throws
    starts with [Failed to generate SQL: ]. *)
Theorem synthesizer_calls_and_failures
    (w : World) (userQuery : string) (tabs : list TableRow)
    (cols : list ColumnRow) (schema : DatabaseSchema) (h : History) :
  (calls (generateSQLWithClaude w userQuery tabs cols schema h) = [] \/
   exists prompt,
     calls (generateSQLWithClaude w userQuery tabs cols schema h) =
     [MessagesCreate prompt]) /\
  (forall message,
     completion (generateSQLWithClaude w userQuery tabs cols schema h) =
       Throw message ->
     exists cause, message = "Failed to generate SQL: " +:+ cause).
Proof.
  destruct (assemble cols schema) as [o|cause] eqn:Ho.
  - rewrite (generateSQLWithClaude_eq w userQuery tabs cols schema h o Ho).
    split; [right; eexists; reflexivity|].
    intros message. unfold completion; simpl.
    destruct (anthropic_messages_create w h (build_prompt userQuery o));
      [discriminate|].
    intros [= <-]. eauto.
  - rewrite (generateSQLWithClaude_throw_eq w userQuery tabs cols schema h
               cause Ho).
    split; [left; reflexivity|].
    intros message [= <-]. eauto.
Qed.

(** When the completion service rejects the request, the synthesizer
    throws the service's message behind the prefix
    [Failed to generate SQL: ], after the one call. *)
Lemma synthesizer_wraps_service_failure
    (w : World) (userQuery : string) (tabs : list TableRow)
    (cols : list ColumnRow) (schema : DatabaseSchema) (h : History)
    (cause : string) :
  Forall (fun c => inherited_key (table_name c) = false) cols ->
  anthropic_messages_create w h
    (build_prompt userQuery (grouped schema cols)) = Rejected cause ->
  generateSQLWithClaude w userQuery tabs cols schema h =
  (Throw ("Failed to generate SQL: " +:+ cause),
   [MessagesCreate (build_prompt userQuery (grouped schema cols))]).
Proof.
  intros Hplain Hrej.
  rewrite (generateSQLWithClaude_eq w userQuery tabs cols schema h _
             (assemble_grouped schema cols Hplain)).
  rewrite Hrej. reflexivity.
Qed.

(** X7. A ranked column whose table is named like a member of
    [Object.prototype] makes the synthesizer fail before it calls the
    completion service. *)
Theorem synthesizer_fails_on_inherited_table_name
    (w : World) (userQuery : string) (tabs : list TableRow)
    (cols : list ColumnRow) (schema : DatabaseSchema) (h : History) :
  Exists (fun c => inherited_key (table_name c) = true) cols ->
  generateSQLWithClaude w userQuery tabs cols schema h =
  (Throw ("Failed to generate SQL: " +:+ PUSH_OF_UNDEFINED), []).
Proof.
  intros Hex. apply generateSQLWithClaude_throw_eq.
  apply assemble_throws. exact Hex.
Qed.

Lemma synthesizer_fails_on_inherited_table_name_witness :
  generateSQLWithClaude Examples.healthy "who built it" []
    [Examples.ranked_column "customers" "email" None;
     Examples.ranked_column "constructor" "id" None]
    Examples.no_schema [] =
  (Throw "Failed to generate SQL: Cannot read properties of undefined (reading 'push')",
   []).
Proof.
  apply (synthesizer_fails_on_inherited_table_name Examples.healthy).
  apply Exists_cons_tl. apply Exists_cons_hd. reflexivity.
Defined.

(** X8. The prompt sent to the completion service holds the user's
    question as it was given and the serialized schema context. *)
Theorem prompt_holds_question_and_context
    (w : World) (userQuery : string) (tabs : list TableRow)
    (cols : list ColumnRow) (schema : DatabaseSchema) (h : History)
    (o : JsObject RelevantTable) :
  assemble cols schema = Normal o ->
  exists prompt,
    calls (generateSQLWithClaude w userQuery tabs cols schema h) =
      [MessagesCreate prompt] /\
    includes userQuery prompt = true /\
    includes (schema_context o) prompt = true.
Proof.
  intros Ho. exists (build_prompt userQuery o).
  rewrite (generateSQLWithClaude_eq w userQuery tabs cols schema h o Ho).
  split; [reflexivity|]. unfold build_prompt. split.
  - apply includes_infix.
  - rewrite <- (string_app_assoc userQuery).
    rewrite <- (string_app_assoc _ (userQuery +:+ _)).
    apply includes_infix.
Qed.

Lemma prompt_holds_question_and_context_witness :
  exists prompt,
    calls (generateSQLWithClaude Examples.healthy "show me all customers" []
             Examples.twice Examples.no_schema []) = [MessagesCreate prompt] /\
    includes "show me all customers" prompt = true /\
    includes "TABLE: customers" prompt = true.
Proof.
  edestruct (prompt_holds_question_and_context Examples.healthy
               "show me all customers" [] Examples.twice Examples.no_schema [])
    as (prompt & Hcalls & Hq & _).
  - reflexivity.
  - exists prompt. split; [exact Hcalls|]. split; [exact Hq|].
    clear Hq. vm_compute in Hcalls. injection Hcalls as <-.
    vm_compute. reflexivity.
Defined.

(** * Further properties of the orchestrator *)

Lemma embedded_texts_app (a b : list Event) :
  embedded_texts (a ++ b) = embedded_texts a ++ embedded_texts b.
Proof. unfold embedded_texts. apply omap_app. Qed.

Lemma getDatabaseSchema_embeds_nothing (w : World) (h : History) :
  embedded_texts (calls (getDatabaseSchema w h)) = [].
Proof.
  unfold getDatabaseSchema, try_catch, bind, query_schema_tables,
    query_schema_columns, pg_query, await, ret.
  destruct (pg_error w h SCHEMA_TABLES_SQL []); [reflexivity|].
  destruct (pg_error w (h ++ [PgQuery SCHEMA_TABLES_SQL []])
              SCHEMA_COLUMNS_SQL []); reflexivity.
Qed.

Lemma ranked_embeds_once {A} (w : World) text
    (rows : vector -> History -> list A) query h :
  embedded_texts (calls (ranked w text rows query h)) = [query].
Proof.
  unfold ranked. destruct (openai_createEmbedding w h query); reflexivity.
Qed.

Lemma generateSQLWithClaude_embeds_nothing (w : World) userQuery tabs cols
    schema h :
  embedded_texts (calls (generateSQLWithClaude w userQuery tabs cols schema h))
  = [].
Proof.
  destruct (assemble cols schema) as [o|cause] eqn:Ho.
  - rewrite (generateSQLWithClaude_eq w userQuery tabs cols schema h o Ho).
    reflexivity.
  - rewrite (generateSQLWithClaude_throw_eq w userQuery tabs cols schema h
               cause Ho).
    reflexivity.
Qed.

Lemma retrieved_embeds_twice (w : World) query h schema e1 tabs e2 cols e3 :
  retrieved w query h schema e1 tabs e2 cols e3 ->
  embedded_texts (e1 ++ e2 ++ e3) = [query; query].
Proof.
  intros (Hs & Ht & Hc).
  pose proof (getDatabaseSchema_embeds_nothing w h) as H1.
  pose proof (ranked_embeds_once w RANK_TABLES_SQL
                (fun q h' => rank_tables (cosine_distance w) 5 q
                               (table_metadata w h')) query (h ++ e1)) as H2.
  pose proof (ranked_embeds_once w RANK_COLUMNS_SQL
                (fun q h' => rank_columns (cosine_distance w) 10 q
                               (column_metadata w h')) query
                ((h ++ e1) ++ e2)) as H3.
  rewrite <- findSimilarTables_eq, Ht in H2.
  rewrite <- findSimilarColumns_eq, Hc in H3.
  rewrite Hs in H1. unfold calls in *; simpl in *.
  rewrite !embedded_texts_app, H1, H2, H3. reflexivity.
Qed.

(** X9. Every request embeds the query twice, once for each ranking, and
    sends nothing else to the embedding service: with or without a supplied
    statement, whatever the services answer. *)
Theorem request_embeds_query_twice
    (w : World) (query : string) (sqlStatement : option string) (h : History) :
  embedded_texts (calls (semanticSQLExecute w query sqlStatement h)) =
  [query; query].
Proof.
  destruct (retrieval_total w query h)
    as (schema & e1 & tabs & e2 & cols & e3 & Hr).
  pose proof (retrieved_embeds_twice w _ _ _ _ _ _ _ _ Hr) as Htwice.
  assert (forall rest, embedded_texts rest = [] ->
            embedded_texts (e1 ++ e2 ++ e3 ++ rest) = [query; query])
    as Hrest.
  { intros rest Hnone.
    replace (e1 ++ e2 ++ e3 ++ rest) with ((e1 ++ e2 ++ e3) ++ rest)
      by (rewrite <- !app_assoc; reflexivity).
    rewrite embedded_texts_app, Htwice, Hnone. reflexivity. }
  destruct (statement_supplied sqlStatement) eqn:Hsup.
  - destruct sqlStatement as [statement|]; [|discriminate].
    rewrite (semanticSQLExecute_direct w _ _ _ _ _ _ _ _ _ Hsup Hr).
    apply Hrest. reflexivity.
  - destruct cols as [|c cols].
    + rewrite (semanticSQLExecute_no_columns w _ _ _ _ _ _ _ _ Hsup Hr).
      exact Htwice.
    + assert (c :: cols <> []) as Hne by discriminate.
      rewrite (semanticSQLExecute_generated w _ _ _ _ _ _ _ _ _ Hsup Hne Hr).
      pose proof (generateSQLWithClaude_embeds_nothing w query tabs
                    (c :: cols) schema (((h ++ e1) ++ e2) ++ e3)) as Hgen.
      destruct (generateSQLWithClaude _ _ _ _ _ _) as [[sql|msg] e4];
        unfold calls in *; simpl in *; apply Hrest.
      * rewrite embedded_texts_app, Hgen. reflexivity.
      * exact Hgen.
Qed.

(** X10. A statement made of white space only is treated as no statement at
    all: the request behaves exactly as if the argument had been left
    out, in both variants. *)
Theorem blank_statement_is_no_statement
    (w : World) (query statement : string) (h : History) :
  all_space statement = true ->
  semanticSQLExecute w query (Some statement) h =
    semanticSQLExecute w query None h /\
  Index.semanticSQLExecute w query (Some statement) h =
    Index.semanticSQLExecute w query None h.
Proof.
  intros Hblank.
  assert (statement_supplied (Some statement) = false) as Hsup
    by (rewrite statement_supplied_not_blank, Hblank; reflexivity).
  split.
  - unfold semanticSQLExecute, try_catch, bind.
    destruct (getDatabaseSchema w h) as [[schema|m1] e1]; [|reflexivity].
    destruct (findSimilarTables w query (h ++ e1)) as [[tabs|m2] e2];
      [|reflexivity].
    destruct (findSimilarColumns w query ((h ++ e1) ++ e2))
      as [[cols|m3] e3]; [|reflexivity].
    rewrite Hsup. reflexivity.
  - unfold Index.semanticSQLExecute, try_catch, bind.
    destruct (Index.findSimilarColumns w query h) as [[cols|m1] e1];
      [|reflexivity].
    rewrite Hsup. reflexivity.
Qed.

Lemma blank_statement_is_no_statement_witness :
  semanticSQLExecute Examples.healthy "show me all customers"
    (Some (String (ascii_of_nat 9) " ")) [] =
  semanticSQLExecute Examples.healthy "show me all customers" None [].
Proof.
  apply (blank_statement_is_no_statement Examples.healthy). reflexivity.
Defined.

(** X11. When the completion service rejects the request, the envelope
    holds only its message behind [Failed to generate SQL: ]: the rankings
    are dropped, and the completion call is the last call, so nothing is
    executed. *)
Theorem generation_failure_envelope
    (w : World) (query : string) (sqlStatement : option string) (h : History)
    (schema : DatabaseSchema) (tabs : list TableRow) (cols : list ColumnRow)
    (e1 e2 e3 : list Event) (cause : string) :
  statement_supplied sqlStatement = false ->
  cols <> [] ->
  retrieved w query h schema e1 tabs e2 cols e3 ->
  Forall (fun c => inherited_key (table_name c) = false) cols ->
  anthropic_messages_create w (((h ++ e1) ++ e2) ++ e3)
    (build_prompt query (grouped schema cols)) = Rejected cause ->
  semanticSQLExecute w query sqlStatement h =
  (Normal {| results := [];
             similarTables := None;
             similarColumns := None;
             executedQuery := None;
             error := Some ("Failed to generate SQL: " +:+ cause);
             generatedQuery := None |},
   e1 ++ e2 ++ e3 ++
   [MessagesCreate (build_prompt query (grouped schema cols))]).
Proof.
  intros Hsup Hne Hr Hplain Hrej.
  rewrite (semanticSQLExecute_generated w _ _ _ _ _ _ _ _ _ Hsup Hne Hr).
  rewrite (synthesizer_wraps_service_failure w query tabs cols schema _ cause
             Hplain Hrej).
  reflexivity.
Qed.

Lemma generation_failure_envelope_witness :
  completion (semanticSQLExecute Scenarios.completion_outage
                "show me all customers" None []) =
  Normal {| results := [];
            similarTables := None;
            similarColumns := None;
            executedQuery := None;
            error := Some "Failed to generate SQL: 529 Overloaded";
            generatedQuery := None |}.
Proof.
  erewrite (generation_failure_envelope Scenarios.completion_outage
              "show me all customers" None []).
  - reflexivity.
  - reflexivity.
  - shelve.
  - unfold retrieved. split; [reflexivity|]. split; reflexivity.
  - repeat constructor.
  - reflexivity.
  Unshelve. discriminate.
Defined.

(** X12. When the completion service answers, the store receives the
    answer with its surrounding white space removed, right after the
    completion call. If the store accepts it, the envelope reports that
    text as [executedQuery] with the rows and both rankings; if the store
    rejects it, the envelope reports the store's message behind
    [Error executing generated SQL: ], the text as [generatedQuery], and
    both rankings. *)
Theorem generated_statement_outcomes
    (w : World) (query : string) (sqlStatement : option string) (h : History)
    (schema : DatabaseSchema) (tabs : list TableRow) (cols : list ColumnRow)
    (e1 e2 e3 : list Event) (text : string) :
  statement_supplied sqlStatement = false ->
  cols <> [] ->
  retrieved w query h schema e1 tabs e2 cols e3 ->
  Forall (fun c => inherited_key (table_name c) = false) cols ->
  anthropic_messages_create w (((h ++ e1) ++ e2) ++ e3)
    (build_prompt query (grouped schema cols)) = Fulfilled text ->
  calls (semanticSQLExecute w query sqlStatement h) =
    e1 ++ e2 ++ e3 ++
    [MessagesCreate (build_prompt query (grouped schema cols));
     PgQuery (trim text) []] /\
  (pg_error w
     ((((h ++ e1) ++ e2) ++ e3) ++
      [MessagesCreate (build_prompt query (grouped schema cols))])
     (trim text) [] = None ->
   completion (semanticSQLExecute w query sqlStatement h) =
   Normal {| results :=
               pg_rows w
                 ((((h ++ e1) ++ e2) ++ e3) ++
                  [MessagesCreate (build_prompt query (grouped schema cols))])
                 (trim text);
             similarTables := Some tabs;
             similarColumns := Some cols;
             executedQuery := Some (trim text);
             error := None;
             generatedQuery := None |}) /\
  (forall message,
     pg_error w
       ((((h ++ e1) ++ e2) ++ e3) ++
        [MessagesCreate (build_prompt query (grouped schema cols))])
       (trim text) [] = Some message ->
     completion (semanticSQLExecute w query sqlStatement h) =
     Normal {| results := [];
               similarTables := Some tabs;
               similarColumns := Some cols;
               executedQuery := None;
               error := Some ("Error executing generated SQL: " +:+ message);
               generatedQuery := Some (trim text) |}).
Proof.
  intros Hsup Hne Hr Hplain Htext.
  rewrite (semanticSQLExecute_generated w _ _ _ _ _ _ _ _ _ Hsup Hne Hr).
  rewrite (generateSQLWithClaude_eq w query tabs cols schema _ _
             (assemble_grouped schema cols Hplain)).
  rewrite Htext. unfold calls, completion; simpl.
  split; [reflexivity|]. split.
  - intros ->. reflexivity.
  - intros message ->. reflexivity.
Qed.

Lemma generated_statement_outcomes_witness :
  exists tabs cols,
    completion (semanticSQLExecute Examples.strict_store "one" None []) =
    Normal {| results := [];
              similarTables := Some tabs;
              similarColumns := Some cols;
              executedQuery := None;
              error := Some ("Error executing generated SQL: " +:+
                             Examples.SYNTAX_ERROR);
              generatedQuery := Some "SELEC 1" |}.
Proof.
  eexists _, _.
  edestruct (generated_statement_outcomes Examples.strict_store "one" None [])
    as (_ & _ & Hrejected).
  - reflexivity.
  - shelve.
  - unfold retrieved. split; [reflexivity|]. split; reflexivity.
  - repeat constructor.
  - reflexivity.
  - exact (Hrejected _ eq_refl).
  Unshelve. discriminate.
Defined.

(** X13. While the embedding service rejects every call, a request without
    a statement resolves to the envelope [Could not determine which data to
    query.] with two empty rankings and without a completion call, and a
    request with a statement still sends it to the store as its last call;
    when the store accepts it, the envelope holds its rows, the statement
    and two empty rankings. *)
Theorem embedding_outage_outcomes
    (w : World) (query : string) (h : History) :
  (forall h', exists msg, openai_createEmbedding w h' query = Rejected msg) ->
  (forall sqlStatement,
     statement_supplied sqlStatement = false ->
     completion (semanticSQLExecute w query sqlStatement h) =
       Normal {| results := [];
                 similarTables := Some [];
                 similarColumns := Some [];
                 executedQuery := None;
                 error := Some "Could not determine which data to query.";
                 generatedQuery := None |} /\
     no_completion_call (calls (semanticSQLExecute w query sqlStatement h))) /\
  (forall statement,
     all_space statement = false ->
     exists earlier,
       calls (semanticSQLExecute w query (Some statement) h) =
         earlier ++ [PgQuery statement []] /\
       (pg_error w (h ++ earlier) statement [] = None ->
        completion (semanticSQLExecute w query (Some statement) h) =
        Normal {| results := pg_rows w (h ++ earlier) statement;
                  similarTables := Some [];
                  similarColumns := Some [];
                  executedQuery := Some statement;
                  error := None;
                  generatedQuery := None |})).
Proof.
  intros Hdown.
  destruct (getDatabaseSchema_normal w h) as (schema & e1 & Hs & _).
  assert (retrieved w query h schema e1 [] [CreateEmbedding query]
            [] [CreateEmbedding query]) as Hr.
  { split; [exact Hs|]. split.
    - rewrite findSimilarTables_eq. unfold ranked.
      destruct (Hdown (h ++ e1)) as [msg ->]. reflexivity.
    - rewrite findSimilarColumns_eq. unfold ranked.
      destruct (Hdown ((h ++ e1) ++ [CreateEmbedding query])) as [msg ->].
      reflexivity. }
  split.
  - intros sqlStatement Hsup.
    rewrite (semanticSQLExecute_no_columns w _ _ _ _ _ _ _ _ Hsup Hr).
    split; [reflexivity|].
    exact (proj1 (retrieved_calls w _ _ _ _ _ _ _ _ Hr)).
  - intros statement Hblank.
    assert (statement_supplied (Some statement) = true) as Hsup
      by (rewrite statement_supplied_not_blank, Hblank; reflexivity).
    rewrite (semanticSQLExecute_direct w _ _ _ _ _ _ _ _ _ Hsup Hr).
    exists (e1 ++ [CreateEmbedding query] ++ [CreateEmbedding query]).
    assert (((h ++ e1) ++ [CreateEmbedding query]) ++ [CreateEmbedding query]
            = h ++ e1 ++ [CreateEmbedding query] ++ [CreateEmbedding query])
      as -> by (rewrite <- !app_assoc; reflexivity).
    unfold calls, completion. split.
    + simpl. rewrite <- !app_assoc. reflexivity.
    + intros ->. reflexivity.
Qed.

Lemma embedding_outage_outcomes_witness :
  exists earlier,
    calls (semanticSQLExecute Examples.embedding_outage "expensive products"
             (Some "SELECT product_name FROM products WHERE price > 100;") [])
    = earlier ++
      [PgQuery "SELECT product_name FROM products WHERE price > 100;" []].
Proof.
  destruct (embedding_outage_outcomes Examples.embedding_outage
              "expensive products" []) as [_ Hdirect].
  - intros h'. eexists. reflexivity.
  - destruct (Hdirect "SELECT product_name FROM products WHERE price > 100;"
                eq_refl) as (earlier & Hcalls & _).
    exists earlier. exact Hcalls.
Defined.

(** * Further properties of the variant without a language model *)

Section IndexPaths.

Variable w : World.

Lemma Index_semanticSQLExecute_direct query statement h cols e1 :
  statement_supplied (Some statement) = true ->
  Index.findSimilarColumns w query h = (Normal cols, e1) ->
  Index.semanticSQLExecute w query (Some statement) h =
  (Normal match pg_error w (h ++ e1) statement [] with
          | None =>
              {| Index.results := pg_rows w (h ++ e1) statement;
                 Index.similarColumns := Some cols;
                 Index.executedQuery := Some statement;
                 Index.error := None |}
          | Some message => Index_failure message
          end,
   e1 ++ [PgQuery statement []]).
Proof.
  intros Hsup Hc.
  unfold Index.semanticSQLExecute, try_catch, bind.
  rewrite Hc, Hsup.
  unfold query_statement, pg_query, await, ret, Index_failure.
  destruct (pg_error w (h ++ e1) statement []);
    simpl; rewrite ?app_nil_r; reflexivity.
Qed.

Lemma Index_semanticSQLExecute_generated query sqlStatement h top others e1 :
  statement_supplied sqlStatement = false ->
  Index.findSimilarColumns w query h = (Normal (top :: others), e1) ->
  Index.semanticSQLExecute w query sqlStatement h =
  (Normal match pg_error w (h ++ e1)
                  ("SELECT * FROM " +:+ Index.table_name top +:+ " LIMIT 10;")
                  [] with
          | None =>
              {| Index.results :=
                   pg_rows w (h ++ e1)
                     ("SELECT * FROM " +:+ Index.table_name top +:+
                      " LIMIT 10;");
                 Index.similarColumns := Some (top :: others);
                 Index.executedQuery :=
                   Some ("SELECT * FROM " +:+ Index.table_name top +:+
                         " LIMIT 10;");
                 Index.error := None |}
          | Some message => Index_failure message
          end,
   e1 ++ [PgQuery ("SELECT * FROM " +:+ Index.table_name top +:+ " LIMIT 10;")
            []]).
Proof.
  intros Hsup Hc.
  unfold Index.semanticSQLExecute, try_catch, bind.
  rewrite Hc.
  destruct sqlStatement as [statement|]; [rewrite Hsup|];
    unfold bind, query_statement, pg_query, await, ret, Index_failure;
    (destruct (pg_error w (h ++ e1)
                 ("SELECT * FROM " +:+ Index.table_name top +:+ " LIMIT 10;")
                 []);
     simpl; rewrite ?app_nil_r; reflexivity).
Qed.

Lemma Index_semanticSQLExecute_no_columns query sqlStatement h e1 :
  statement_supplied sqlStatement = false ->
  Index.findSimilarColumns w query h = (Normal [], e1) ->
  Index.semanticSQLExecute w query sqlStatement h =
  (Normal {| Index.results := [];
             Index.similarColumns := Some [];
             Index.executedQuery := None;
             Index.error := Some "Could not determine which data to query." |},
   e1).
Proof.
  intros Hsup Hc.
  unfold Index.semanticSQLExecute, try_catch, bind.
  rewrite Hc.
  destruct sqlStatement as [statement|]; [rewrite Hsup|];
    simpl; rewrite ?app_nil_r; reflexivity.
Qed.

End IndexPaths.

(** X14. A request of Index.js never throws, makes no call to the
    completion service and embeds the query once; after the ranking it
    sends at most one statement to the store. *)
Theorem Index_request_calls
    (w : World) (query : string) (sqlStatement : option string) (h : History) :
  (exists envelope,
     completion (Index.semanticSQLExecute w query sqlStatement h) =
     Normal envelope) /\
  no_completion_call (calls (Index.semanticSQLExecute w query sqlStatement h)) /\
  embedded_texts (calls (Index.semanticSQLExecute w query sqlStatement h)) =
    [query] /\
  exists rest,
    calls (Index.semanticSQLExecute w query sqlStatement h) =
      calls (Index.findSimilarColumns w query h) ++ rest /\
    (rest = [] \/ exists statement, rest = [PgQuery statement []]).
Proof.
  destruct (Index_findSimilarColumns_normal w query h)
    as (cols & e1 & Hc & Hno & _).
  pose proof (ranked_embeds_once w Index.RANK_COLUMNS_SQL
                (fun q h' => Index.rank_columns (cosine_distance w) 5 q
                               (column_metadata w h')) query h) as Honce.
  rewrite <- Index_findSimilarColumns_eq, Hc in Honce.
  unfold calls in Honce; simpl in Honce.
  rewrite Hc.
  destruct (statement_supplied sqlStatement) eqn:Hsup.
  - destruct sqlStatement as [statement|]; [|discriminate].
    rewrite (Index_semanticSQLExecute_direct w _ _ _ _ _ Hsup Hc).
    unfold calls, completion; simpl.
    split; [eauto|].
    split; [apply Forall_app; split; [exact Hno|repeat constructor]|].
    split; [rewrite embedded_texts_app, Honce; reflexivity|].
    eexists. split; [reflexivity|]. right. eauto.
  - destruct cols as [|top others].
    + rewrite (Index_semanticSQLExecute_no_columns w _ _ _ _ Hsup Hc).
      unfold calls, completion; simpl.
      split; [eauto|]. split; [exact Hno|]. split; [exact Honce|].
      exists []. rewrite app_nil_r. auto.
    + rewrite (Index_semanticSQLExecute_generated w _ _ _ _ _ _ Hsup Hc).
      unfold calls, completion; simpl.
      split; [eauto|].
      split; [apply Forall_app; split; [exact Hno|repeat constructor]|].
      split; [rewrite embedded_texts_app, Honce; reflexivity|].
      eexists. split; [reflexivity|]. right. eauto.
Qed.

(** X15. In Index.js a statement the store rejects, supplied or built from
    the top column, leaves only the store's message in the envelope:
    neither the statement nor the ranking is reported. *)
Theorem Index_rejected_statement
    (w : World) (query : string) (h : History)
    (cols : list Index.ColumnRow) (e1 : list Event) (message : string) :
  Index.findSimilarColumns w query h = (Normal cols, e1) ->
  (forall statement,
     all_space statement = false ->
     pg_error w (h ++ e1) statement [] = Some message ->
     completion (Index.semanticSQLExecute w query (Some statement) h) =
     Normal (Index_failure message)) /\
  (forall sqlStatement top others,
     statement_supplied sqlStatement = false ->
     cols = top :: others ->
     pg_error w (h ++ e1)
       ("SELECT * FROM " +:+ Index.table_name top +:+ " LIMIT 10;") [] =
       Some message ->
     completion (Index.semanticSQLExecute w query sqlStatement h) =
     Normal (Index_failure message)).
Proof.
  intros Hc. split.
  - intros statement Hblank Hrej.
    assert (statement_supplied (Some statement) = true) as Hsup
      by (rewrite statement_supplied_not_blank, Hblank; reflexivity).
    rewrite (Index_semanticSQLExecute_direct w _ _ _ _ _ Hsup Hc), Hrej.
    reflexivity.
  - intros sqlStatement top others Hsup -> Hrej.
    rewrite (Index_semanticSQLExecute_generated w _ _ _ _ _ _ Hsup Hc), Hrej.
    reflexivity.
Qed.

Lemma Index_rejected_statement_witness :
  completion (Index.semanticSQLExecute Scenarios.permission_denied
                "customer phone" None []) =
  Normal (Index_failure "permission denied for table customers").
Proof.
  edestruct (Index_rejected_statement Scenarios.permission_denied
               "customer phone" []) as [_ Hgenerated].
  - vm_compute. reflexivity.
  - eapply (Hgenerated None); reflexivity.
Defined.

(** X16. In Index.js a supplied statement that holds a character other
    than white space is the one call after the ranking, as it was given;
    when the store accepts it the envelope holds the rows, the ranking and
    the statement as [executedQuery]. *)
Theorem Index_direct_statement
    (w : World) (query statement : string) (h : History)
    (cols : list Index.ColumnRow) (e1 : list Event) :
  all_space statement = false ->
  Index.findSimilarColumns w query h = (Normal cols, e1) ->
  calls (Index.semanticSQLExecute w query (Some statement) h) =
    e1 ++ [PgQuery statement []] /\
  (pg_error w (h ++ e1) statement [] = None ->
   completion (Index.semanticSQLExecute w query (Some statement) h) =
   Normal {| Index.results := pg_rows w (h ++ e1) statement;
             Index.similarColumns := Some cols;
             Index.executedQuery := Some statement;
             Index.error := None |}).
Proof.
  intros Hblank Hc.
  assert (statement_supplied (Some statement) = true) as Hsup
    by (rewrite statement_supplied_not_blank, Hblank; reflexivity).
  rewrite (Index_semanticSQLExecute_direct w _ _ _ _ _ Hsup Hc).
  unfold calls, completion; simpl. split; [reflexivity|].
  intros ->. reflexivity.
Qed.

Lemma Index_direct_statement_witness :
  exists earlier,
    calls (Index.semanticSQLExecute Examples.healthy "expensive products"
             (Some "SELECT product_name FROM products WHERE price > 100;") [])
    = earlier ++
      [PgQuery "SELECT product_name FROM products WHERE price > 100;" []].
Proof.
  eexists.
  edestruct (Index_direct_statement Examples.healthy "expensive products"
               "SELECT product_name FROM products WHERE price > 100;" [])
    as (Hcalls & _).
  - reflexivity.
  - vm_compute. reflexivity.
  - exact Hcalls.
Defined.

(** X17. In Index.js, without a supplied statement and without a ranked
    column, nothing is sent to the store after the ranking and the envelope
    holds [Could not determine which data to query.] and an empty
    ranking. *)
Theorem Index_no_columns
    (w : World) (query : string) (sqlStatement : option string) (h : History)
    (e1 : list Event) :
  statement_supplied sqlStatement = false ->
  Index.findSimilarColumns w query h = (Normal [], e1) ->
  Index.semanticSQLExecute w query sqlStatement h =
  (Normal {| Index.results := [];
             Index.similarColumns := Some [];
             Index.executedQuery := None;
             Index.error := Some "Could not determine which data to query." |},
   e1).
Proof. apply Index_semanticSQLExecute_no_columns. Qed.

Lemma Index_no_columns_witness :
  Index.semanticSQLExecute Examples.embedding_outage "orders" None [] =
  (Normal {| Index.results := [];
             Index.similarColumns := Some [];
             Index.executedQuery := None;
             Index.error := Some "Could not determine which data to query." |},
   [CreateEmbedding "orders"]).
Proof.
  apply (Index_no_columns Examples.embedding_outage "orders" None []);
    reflexivity.
Defined.

(** * Properties of the tool handler *)

(** X18. A request for a tool that is none of [execute_query],
    [find_similar_tables] and [find_similar_columns] resolves to the error
    [Tool not found] without a call to any service, whatever its
    parameters. *)
Theorem unknown_tool_is_not_found
    (w : World) (request : Tool.Request) (h : History) :
  Tool.name request ∉
    ["execute_query"; "find_similar_tables"; "find_similar_columns"] ->
  Tool.executeTool w request h = (Normal (Tool.Error "Tool not found"), []).
Proof.
  intros Hname. unfold Tool.executeTool.
  rewrite !not_elem_of_cons in Hname. destruct Hname as (H1 & H2 & H3 & _).
  rewrite !bool_decide_eq_false_2 by assumption. reflexivity.
Qed.

Lemma unknown_tool_is_not_found_witness :
  Tool.executeTool Examples.healthy
    {| Tool.name := "drop_database"; Tool.parameters := None |} [] =
  (Normal (Tool.Error "Tool not found"), []).
Proof.
  apply unknown_tool_is_not_found.
  rewrite !not_elem_of_cons. repeat split; try discriminate.
  apply not_elem_of_nil.
Defined.

(** X19. When the request carries its parameters, the handler never throws
    and never resolves to an error for one of its three tools: it resolves
    to the result of the tool's function, so that a failure of
    [execute_query] is only ever reported inside the result's envelope. *)
Theorem known_tool_always_returns_result
    (w : World) (name : string) (p : Tool.Parameters) (h : History) :
  (name = "execute_query" ->
   exists envelope,
     Tool.executeTool w {| Tool.name := name; Tool.parameters := Some p |} h =
     (Normal (Tool.QueryResult envelope),
      calls (semanticSQLExecute w (Tool.natural_language_query p)
               (Tool.sql_statement p) h)) /\
     completion (semanticSQLExecute w (Tool.natural_language_query p)
                   (Tool.sql_statement p) h) = Normal envelope) /\
  (name = "find_similar_tables" ->
   exists rows,
     Tool.executeTool w {| Tool.name := name; Tool.parameters := Some p |} h =
     (Normal (Tool.TablesResult rows),
      calls (findSimilarTables w (Tool.description p) h)) /\
     completion (findSimilarTables w (Tool.description p) h) = Normal rows) /\
  (name = "find_similar_columns" ->
   exists rows,
     Tool.executeTool w {| Tool.name := name; Tool.parameters := Some p |} h =
     (Normal (Tool.ColumnsResult rows),
      calls (findSimilarColumns w (Tool.description p) h)) /\
     completion (findSimilarColumns w (Tool.description p) h) = Normal rows).
Proof.
  repeat split.
  - intros ->. unfold Tool.executeTool; simpl.
    destruct (semanticSQLExecute_total w (Tool.natural_language_query p)
                (Tool.sql_statement p) h) as (envelope & e & Heq).
    exists envelope. unfold try_catch, bind. rewrite Heq.
    unfold calls, completion; simpl. rewrite app_nil_r. auto.
  - intros ->. unfold Tool.executeTool; simpl.
    destruct (findSimilarTables_normal w (Tool.description p) h)
      as (rows & e & Heq & _).
    exists rows. unfold try_catch, bind. rewrite Heq.
    unfold calls, completion; simpl. rewrite app_nil_r. auto.
  - intros ->. unfold Tool.executeTool; simpl.
    destruct (findSimilarColumns_normal w (Tool.description p) h)
      as (rows & e & Heq & _).
    exists rows. unfold try_catch, bind. rewrite Heq.
    unfold calls, completion; simpl. rewrite app_nil_r. auto.
Qed.

Lemma known_tool_always_returns_result_witness :
  exists envelope,
    completion
      (Tool.executeTool Examples.strict_store
         {| Tool.name := "execute_query";
            Tool.parameters :=
              Some {| Tool.natural_language_query := "one";
                      Tool.sql_statement := Some "SELEC 1";
                      Tool.description := "" |} |} []) =
    Normal (Tool.QueryResult envelope) /\
    error envelope = Some Examples.SYNTAX_ERROR.
Proof.
  destruct (known_tool_always_returns_result Examples.strict_store
              "execute_query"
              {| Tool.natural_language_query := "one";
                 Tool.sql_statement := Some "SELEC 1";
                 Tool.description := "" |} []) as (Hq & _).
  destruct (Hq eq_refl) as (envelope & Heq & Henv).
  exists envelope. rewrite Heq. split; [reflexivity|].
  vm_compute in Henv. injection Henv as <-. reflexivity.
Defined.

(** X20. When [request.parameters] is undefined, a request for one of the
    three tools throws out of the handler before any service is called:
    the parameters are destructured outside the handler's [try]. *)
Theorem missing_parameters_throw
    (w : World) (name : string) (h : History) :
  name ∈ ["execute_query"; "find_similar_tables"; "find_similar_columns"] ->
  exists message,
    Tool.executeTool w {| Tool.name := name; Tool.parameters := None |} h =
    (Throw message, []).
Proof.
  intros Hname. unfold Tool.executeTool; simpl.
  repeat (apply elem_of_cons in Hname as [->|Hname];
          [eexists; reflexivity|]).
  apply elem_of_nil in Hname. contradiction.
Qed.

Lemma missing_parameters_throw_witness :
  exists message,
    Tool.executeTool Examples.healthy
      {| Tool.name := "execute_query"; Tool.parameters := None |} [] =
    (Throw message, []).
Proof.
  apply missing_parameters_throw. apply list_elem_of_here.
Defined.

(** * Properties of the resource handlers *)

Section ResourceFacts.

Variable st : Resources.Store.

Lemma list_query_eq {A} (text : string) (rows : list A) (f : A -> string) :
  Resources.try_catch
    (Resources.bind (Resources.query st text [] rows)
       (fun rows' => Resources.ret (map f rows')))
    (fun _ => Resources.ret []) =
  (Normal match Resources.rejects st
                  {| Resources.text := text; Resources.values := [] |} with
          | None => map f rows
          | Some _ => []
          end,
   [{| Resources.text := text; Resources.values := [] |}]).
Proof.
  unfold Resources.try_catch, Resources.bind, Resources.query, Resources.ret.
  destruct (Resources.rejects st _); reflexivity.
Qed.

End ResourceFacts.

(** X21. Listing resources never fails. The names of the tables, and the
    ids [table.column] of the columns, are listed in stored order with one
    query; when the store rejects that query the listing is empty and the
    error is not reported. [schemas] lists [main], and any other resource
    name lists nothing, both without a query. *)
Theorem listing_resources
    (st : Resources.Store) (id : option string) :
  Resources.listResources st
    {| Resources.resourceName := "tables"; Resources.resourceId := id |} =
    (Normal match Resources.rejects st
                    {| Resources.text := Resources.LIST_TABLES_SQL;
                       Resources.values := [] |} with
            | None => map tm_table_name (Resources.table_rows st)
            | Some _ => []
            end,
     [{| Resources.text := Resources.LIST_TABLES_SQL;
         Resources.values := [] |}]) /\
  Resources.listResources st
    {| Resources.resourceName := "columns"; Resources.resourceId := id |} =
    (Normal match Resources.rejects st
                    {| Resources.text := Resources.LIST_COLUMNS_SQL;
                       Resources.values := [] |} with
            | None => map Resources.column_id (Resources.column_rows st)
            | Some _ => []
            end,
     [{| Resources.text := Resources.LIST_COLUMNS_SQL;
         Resources.values := [] |}]) /\
  Resources.listResources st
    {| Resources.resourceName := "schemas"; Resources.resourceId := id |} =
    (Normal ["main"], []) /\
  forall name,
    name ∉ ["schemas"; "tables"; "columns"] ->
    Resources.listResources st
      {| Resources.resourceName := name; Resources.resourceId := id |} =
    (Normal [], []).
Proof.
  repeat split.
  - unfold Resources.listResources; simpl. apply list_query_eq.
  - unfold Resources.listResources; simpl. apply list_query_eq.
  - intros name Hname. unfold Resources.listResources; simpl.
    rewrite !not_elem_of_cons in Hname. destruct Hname as (H1 & H2 & H3 & _).
    rewrite !bool_decide_eq_false_2 by assumption. reflexivity.
Qed.

Lemma listing_resources_witness :
  Resources.listResources Stores.shop
    {| Resources.resourceName := "prompts"; Resources.resourceId := None |} =
  (Normal [], []).
Proof.
  apply (listing_resources Stores.shop None).
  rewrite !not_elem_of_cons. repeat split; try discriminate.
  apply not_elem_of_nil.
Defined.

Lemma filter_head {A} (f : A -> bool) (l : list A) :
  match List.filter f l with
  | [] => forall x, x ∈ l -> f x = false
  | x :: _ => x ∈ l /\ f x = true
  end.
Proof.
  induction l as [|a l IH]; simpl.
  - intros x Hx. apply elem_of_nil in Hx. contradiction.
  - destruct (f a) eqn:Ha.
    + split; [apply list_elem_of_here | exact Ha].
    + destruct (List.filter f l) as [|x rest].
      * intros x Hx. apply elem_of_cons in Hx as [->|Hx]; auto.
      * destruct IH as [Hin Hfx]. split; [|exact Hfx].
        apply list_elem_of_further. exact Hin.
Qed.

(** X22. Reading a table by name, when the store answers: if a table of
    that name is stored, the content is the first such row, with that
    name; if none is, or the id is undefined, the answer is the error
    [Table not found]. When the store rejects the query, the answer is the
    store's message. *)
Theorem reading_a_table (st : Resources.Store) (id : option string) :
  let q := {| Resources.text := Resources.READ_TABLE_SQL;
              Resources.values :=
                [match id with
                 | Some s => Resources.Text s
                 | None => Resources.Null
                 end] |} in
  (forall message,
     Resources.rejects st q = Some message ->
     Resources.readResource st
       {| Resources.resourceName := "tables"; Resources.resourceId := id |} =
     (Normal (Resources.Error message), [q])) /\
  (Resources.rejects st q = None ->
   (forall name,
      id = Some name ->
      name ∈ map tm_table_name (Resources.table_rows st) ->
      exists m,
        m ∈ Resources.table_rows st /\ tm_table_name m = name /\
        Resources.readResource st
          {| Resources.resourceName := "tables"; Resources.resourceId := id |} =
        (Normal (Resources.Found (Resources.TableContent (schema_table_of m))),
         [q])) /\
   ((forall name, id = Some name ->
       name ∉ map tm_table_name (Resources.table_rows st)) ->
    Resources.readResource st
      {| Resources.resourceName := "tables"; Resources.resourceId := id |} =
    (Normal (Resources.Error "Table not found"), [q]))).
Proof.
  intros q. unfold Resources.readResource; simpl.
  unfold Resources.try_catch, Resources.bind, Resources.query, Resources.ret.
  fold q. split.
  - intros message ->. reflexivity.
  - intros ->. split.
    + intros name -> Hin.
      pose proof (filter_head
                    (fun m => Resources.equals (tm_table_name m)
                                (Resources.Text name))
                    (Resources.table_rows st)) as Hhead.
      destruct (List.filter _ (Resources.table_rows st)) as [|m rest].
      * exfalso. apply list_elem_of_fmap in Hin as (m & -> & Hm).
        specialize (Hhead m Hm). unfold Resources.equals in Hhead.
        rewrite bool_decide_eq_true_2 in Hhead by reflexivity. discriminate.
      * destruct Hhead as [Hm Heq]. exists m. split; [exact Hm|].
        unfold Resources.equals in Heq. apply bool_decide_eq_true_1 in Heq.
        split; [congruence | reflexivity].
    + intros Hnone.
      pose proof (filter_head
                    (fun m => Resources.equals (tm_table_name m)
                                match id with
                                | Some s => Resources.Text s
                                | None => Resources.Null
                                end)
                    (Resources.table_rows st)) as Hhead.
      destruct (List.filter _ (Resources.table_rows st)) as [|m rest];
        [reflexivity|].
      exfalso. destruct Hhead as [Hm Heq].
      unfold Resources.equals in Heq. apply bool_decide_eq_true_1 in Heq.
      destruct id as [name|]; [|discriminate].
      apply (Hnone name eq_refl). injection Heq as ->.
      apply list_elem_of_fmap. eauto.
Qed.

Lemma reading_a_table_witness :
  Resources.readResource Stores.shop
    {| Resources.resourceName := "tables";
       Resources.resourceId := Some "invoices" |} =
  (Normal (Resources.Error "Table not found"),
   [{| Resources.text := Resources.READ_TABLE_SQL;
       Resources.values := [Resources.Text "invoices"] |}]).
Proof.
  destruct (reading_a_table Stores.shop (Some "invoices")) as [_ H].
  destruct (H eq_refl) as [_ Hnone].
  apply Hnone. intros name [= <-]. simpl.
  rewrite !not_elem_of_cons. repeat split; try discriminate.
  apply not_elem_of_nil.
Defined.

Lemma split_dot_head (s : string) :
  exists rest, Resources.split_dot s = before_dot s :: rest.
Proof.
  induction s as [|a r [rest IH]]; simpl.
  - eauto.
  - destruct (Ascii.eqb a "."); [eauto|]. rewrite IH. eauto.
Qed.

Lemma split_dot_after_table (t c : string) :
  no_dot t = true ->
  Resources.split_dot (t +:+ "." +:+ c) = t :: Resources.split_dot c.
Proof.
  induction t as [|a t IH]; intros Ht.
  - reflexivity.
  - simpl in Ht. apply andb_prop in Ht as [Ha Ht].
    rewrite app_String. simpl.
    destruct (Ascii.eqb a "."); [discriminate|].
    rewrite (IH Ht). reflexivity.
Qed.

Lemma before_dot_no_dot (c : string) : no_dot c = true -> before_dot c = c.
Proof.
  induction c as [|a c IH]; simpl; [reflexivity|].
  intros [Ha Hc]%andb_prop.
  destruct (Ascii.eqb a "."); [discriminate|]. rewrite (IH Hc). reflexivity.
Qed.

(** X23. Reading back a column id taken from the listing. When the table
    name has no dot, the query asks for that table and for the part of the
    column name before its first dot. So a listed column whose name has no
    dot is found, and a listed column whose name has a dot is reported as
    [Column not found] unless the table has a column named by that
    part. *)
Theorem reading_a_listed_column (st : Resources.Store) (m : ColumnMeta) :
  let q := {| Resources.text := Resources.READ_COLUMN_SQL;
              Resources.values :=
                [Resources.Text (cm_table_name m);
                 Resources.Text (before_dot (cm_column_name m))] |} in
  m ∈ Resources.column_rows st ->
  no_dot (cm_table_name m) = true ->
  Resources.rejects st q = None ->
  (no_dot (cm_column_name m) = true ->
   exists m',
     m' ∈ Resources.column_rows st /\
     cm_table_name m' = cm_table_name m /\
     cm_column_name m' = cm_column_name m /\
     Resources.readResource st
       {| Resources.resourceName := "columns";
          Resources.resourceId := Some (Resources.column_id m) |} =
     (Normal (Resources.Found (Resources.ColumnContent (schema_column_of m'))),
      [q])) /\
  ((forall m', m' ∈ Resources.column_rows st ->
      cm_table_name m' = cm_table_name m ->
      cm_column_name m' <> before_dot (cm_column_name m)) ->
   Resources.readResource st
     {| Resources.resourceName := "columns";
        Resources.resourceId := Some (Resources.column_id m) |} =
   (Normal (Resources.Error "Column not found"), [q])).
Proof.
  intros q Hm Ht Hq.
  assert (exists rest,
            Resources.split_dot (Resources.column_id m) =
            cm_table_name m :: before_dot (cm_column_name m) :: rest)
    as [rest Hsplit].
  { unfold Resources.column_id. rewrite (split_dot_after_table _ _ Ht).
    destruct (split_dot_head (cm_column_name m)) as [rest ->]. eauto. }
  unfold Resources.readResource; simpl.
  unfold Resources.try_catch, Resources.bind, Resources.query, Resources.ret.
  rewrite Hsplit. unfold Resources.element; simpl. fold q. rewrite Hq.
  pose proof (filter_head
                (fun m' =>
                   Resources.equals (cm_table_name m')
                     (Resources.Text (cm_table_name m)) &&
                   Resources.equals (cm_column_name m')
                     (Resources.Text (before_dot (cm_column_name m))))
                (Resources.column_rows st)) as Hhead.
  split.
  - intros Hc. rewrite (before_dot_no_dot _ Hc) in *.
    destruct (List.filter _ (Resources.column_rows st)) as [|m' others].
    + exfalso. specialize (Hhead m Hm). unfold Resources.equals in Hhead.
      rewrite !bool_decide_eq_true_2 in Hhead by reflexivity. discriminate.
    + destruct Hhead as [Hm' Heq]. apply andb_prop in Heq as [Ht' Hc'].
      unfold Resources.equals in Ht', Hc'.
      apply bool_decide_eq_true_1 in Ht'. apply bool_decide_eq_true_1 in Hc'.
      exists m'. split; [exact Hm'|]. split; [congruence|].
      split; [congruence | reflexivity].
  - intros Hnone.
    destruct (List.filter _ (Resources.column_rows st)) as [|m' others];
      [reflexivity|].
    exfalso. destruct Hhead as [Hm' Heq]. apply andb_prop in Heq as [Ht' Hc'].
    unfold Resources.equals in Ht', Hc'.
    apply bool_decide_eq_true_1 in Ht'. apply bool_decide_eq_true_1 in Hc'.
    apply (Hnone m' Hm'); congruence.
Qed.

Lemma reading_a_listed_column_witness :
  Resources.column_id (Examples.column "customers" "address.city" None) ∈
    match Resources.listResources Stores.shop
            {| Resources.resourceName := "columns";
               Resources.resourceId := None |} with
    | (Normal ids, _) => ids
    | _ => []
    end /\
  fst
    (Resources.readResource Stores.shop
       {| Resources.resourceName := "columns";
          Resources.resourceId := Some "customers.address.city" |}) =
  Normal (Resources.Error "Column not found").
Proof.
  split.
  - simpl. do 3 apply list_elem_of_further. apply list_elem_of_here.
  - edestruct (reading_a_listed_column Stores.shop
                 (Examples.column "customers" "address.city" None))
      as [_ Hdotted].
    + simpl. do 3 apply list_elem_of_further. apply list_elem_of_here.
    + reflexivity.
    + reflexivity.
    + refine (f_equal fst (Hdotted _)).
      intros m' Hm' _. simpl in Hm'.
      repeat (apply elem_of_cons in Hm' as [->|Hm']; [discriminate|]).
      apply elem_of_nil in Hm'. contradiction.
Defined.

(** X24. Reading a column with an id that cannot name one. When the id is
    undefined, the answer is the error of the failed [split] and no query
    is sent. When the id has no dot, the query asks for a NULL column
    name, which no row has: the answer is [Column not found], or the
    store's message when the store rejects the query. *)
Theorem reading_a_column_without_a_name (st : Resources.Store) :
  Resources.readResource st
    {| Resources.resourceName := "columns"; Resources.resourceId := None |} =
    (Normal (Resources.Error Resources.SPLIT_OF_UNDEFINED), []) /\
  forall id,
    no_dot id = true ->
    Resources.readResource st
      {| Resources.resourceName := "columns"; Resources.resourceId := Some id |}
    = (Normal (Resources.Error
                 match Resources.rejects st
                         {| Resources.text := Resources.READ_COLUMN_SQL;
                            Resources.values :=
                              [Resources.Text id; Resources.Null] |} with
                 | Some message => message
                 | None => "Column not found"
                 end),
       [{| Resources.text := Resources.READ_COLUMN_SQL;
           Resources.values := [Resources.Text id; Resources.Null] |}]).
Proof.
  split; [reflexivity|].
  intros id Hid.
  assert (Resources.split_dot id = [id]) as Hsplit.
  { clear st. induction id as [|a r IH]; [reflexivity|].
    simpl in *. apply andb_prop in Hid as [Ha Hr].
    destruct (Ascii.eqb a "."); [discriminate|]. rewrite (IH Hr). reflexivity. }
  unfold Resources.readResource; simpl.
  unfold Resources.try_catch, Resources.bind, Resources.query, Resources.ret.
  rewrite Hsplit. unfold Resources.element; simpl.
  destruct (Resources.rejects st _); [reflexivity|].
  assert (List.filter
            (fun m => Resources.equals (cm_table_name m) (Resources.Text id) &&
                      Resources.equals (cm_column_name m) Resources.Null)
            (Resources.column_rows st) = []) as ->; [|reflexivity].
  induction (Resources.column_rows st) as [|m rows IH]; [reflexivity|].
  simpl. rewrite andb_false_r. exact IH.
Qed.

Lemma reading_a_column_without_a_name_witness :
  fst
    (Resources.readResource Stores.shop
       {| Resources.resourceName := "columns";
          Resources.resourceId := Some "email" |}) =
  Normal (Resources.Error "Column not found").
Proof.
  destruct (reading_a_column_without_a_name Stores.shop) as [_ H].
  rewrite (H "email" eq_refl). reflexivity.
Defined.

(** ** Reading the schema *)

Lemma schema_group_snoc (done : list ColumnMeta) (r : ColumnMeta) (t : string) :
  schema_group (done ++ [r]) t =
  if bool_decide (cm_table_name r = t)
  then schema_group done t ++ [Resources.schema_entry r]
  else schema_group done t.
Proof.
  unfold schema_group.
  rewrite filter_app, map_app, filter_cons, filter_nil.
  case_bool_decide as Ht.
  - rewrite decide_True by exact Ht. reflexivity.
  - rewrite decide_False by exact Ht. simpl. rewrite app_nil_r. reflexivity.
Qed.

Lemma schema_group_fresh (done : list ColumnMeta) (t : string) :
  t ∉ map cm_table_name done -> schema_group done t = [].
Proof.
  intros Hnotin. unfold schema_group.
  induction done as [|r done IH]; [reflexivity|].
  rewrite filter_cons. simpl in Hnotin.
  rewrite not_elem_of_cons in Hnotin. destruct Hnotin as [Hne Hrest].
  rewrite decide_False by congruence. apply IH. exact Hrest.
Qed.

Lemma schema_grouped_snoc (done : list ColumnMeta) (r : ColumnMeta) :
  schema_grouped (done ++ [r]) =
  map (fun t => (t, schema_group (done ++ [r]) t))
      (note_first (first_occurrences (map cm_table_name done))
         (cm_table_name r)).
Proof.
  unfold schema_grouped. rewrite map_app. simpl.
  rewrite first_occurrences_snoc. reflexivity.
Qed.

Lemma own_property_schema_grouped (done : list ColumnMeta) (k : string) :
  own_property (schema_grouped done) k =
  if bool_decide (k ∈ first_occurrences (map cm_table_name done))
  then Some (schema_group done k) else None.
Proof. unfold schema_grouped. apply own_property_tabulate. Qed.

Lemma schema_step_grouped (done : list ColumnMeta) (r : ColumnMeta) :
  inherited_key (cm_table_name r) = false ->
  Resources.schema_step (schema_grouped done) r =
  Normal (schema_grouped (done ++ [r])).
Proof.
  intros Hplain.
  pose proof (own_property_schema_grouped done (cm_table_name r)) as Hown.
  rewrite schema_grouped_snoc. unfold note_first.
  unfold Resources.schema_step, get_property.
  destruct (decide (cm_table_name r ∈
                    first_occurrences (map cm_table_name done)))
    as [Hseen|Hseen].
  - rewrite (bool_decide_eq_true_2 _ Hseen) in *.
    rewrite Hown. rewrite Hown.
    unfold schema_grouped.
    rewrite update_own_tabulate by apply NoDup_first_occurrences.
    f_equal. apply map_ext_in. intros t _.
    rewrite schema_group_snoc.
    rewrite (bool_decide_ext (t = cm_table_name r) (cm_table_name r = t))
      by (split; congruence).
    case_bool_decide; subst; reflexivity.
  - rewrite (bool_decide_eq_false_2 _ Hseen) in *.
    rewrite Hown, Hplain.
    rewrite (own_property_app_new _ _ _ Hown).
    rewrite (update_own_app_new _ _ _ _ Hown).
    f_equal. rewrite map_app. simpl. f_equal.
    + unfold schema_grouped. apply map_ext_in. intros t Hin.
      rewrite schema_group_snoc. rewrite bool_decide_eq_false_2; [reflexivity|].
      intros <-. apply Hseen. apply list_elem_of_In. exact Hin.
    + rewrite schema_group_snoc. rewrite bool_decide_eq_true_2 by reflexivity.
      rewrite schema_group_fresh; [reflexivity|].
      intros Hin. apply Hseen. apply elem_of_first_occurrences. exact Hin.
Qed.

Lemma schema_step_inherited (done : list ColumnMeta) (r : ColumnMeta) :
  Forall (fun r => inherited_key (cm_table_name r) = false) done ->
  inherited_key (cm_table_name r) = true ->
  Resources.schema_step (schema_grouped done) r =
  Throw Resources.PUSH_NOT_A_FUNCTION.
Proof.
  intros Hdone Hr.
  assert (own_property (schema_grouped done) (cm_table_name r) = None) as Hown.
  { rewrite own_property_schema_grouped.
    rewrite bool_decide_eq_false_2; [reflexivity|].
    rewrite elem_of_first_occurrences. intros Hin.
    apply list_elem_of_fmap in Hin as (r' & Heq & Hr').
    rewrite Forall_forall in Hdone. specialize (Hdone r' Hr').
    congruence. }
  unfold Resources.schema_step, get_property. rewrite Hown, Hr.
  cbv zeta iota beta. rewrite Hown. reflexivity.
Qed.

(** The loop builds the grouping when no table is named like a member of
    [Object.prototype], and throws otherwise. *)
Lemma schema_loop_result (done rest : list ColumnMeta) :
  Forall (fun r => inherited_key (cm_table_name r) = false) done ->
  Resources.schema_loop (schema_grouped done) rest =
  if bool_decide (Forall (fun r => inherited_key (cm_table_name r) = false)
                    rest)
  then Normal (schema_grouped (done ++ rest))
  else Throw Resources.PUSH_NOT_A_FUNCTION.
Proof.
  revert done. induction rest as [|r rest IH]; intros done Hdone;
    cbn [Resources.schema_loop].
  - rewrite bool_decide_eq_true_2 by constructor.
    rewrite app_nil_r. reflexivity.
  - destruct (inherited_key (cm_table_name r)) eqn:Hr.
    + rewrite (schema_step_inherited done r Hdone Hr).
      rewrite bool_decide_eq_false_2; [reflexivity|].
      intros Hall. inversion Hall; subst. congruence.
    + rewrite (schema_step_grouped done r Hr).
      rewrite IH
        by (apply Forall_app; split; [exact Hdone | repeat constructor; exact Hr]).
      rewrite <- app_assoc.
      rewrite (bool_decide_ext
                 (Forall (fun r => inherited_key (cm_table_name r) = false)
                    (r :: rest))
                 (Forall (fun r => inherited_key (cm_table_name r) = false)
                    rest)); [reflexivity|].
      rewrite Forall_cons. tauto.
Qed.

Lemma schema_rows_plain (st : Resources.Store) :
  Forall (fun r => inherited_key (cm_table_name r) = false)
    (merge_sort (Resources.schema_order st) (Resources.column_rows st)) <->
  Forall (fun r => inherited_key (cm_table_name r) = false)
    (Resources.column_rows st).
Proof.
  rewrite !Forall_forall. split; intros H r Hr; apply H.
  - rewrite merge_sort_Permutation. exact Hr.
  - rewrite merge_sort_Permutation in Hr. exact Hr.
Qed.

Lemma readResource_schema_eq (st : Resources.Store) :
  Resources.readResource st
    {| Resources.resourceName := "schemas";
       Resources.resourceId := Some "main" |} =
  (Normal (Resources.Found (Resources.SchemaContent
     match Resources.rejects st
             {| Resources.text := Resources.READ_SCHEMA_SQL;
                Resources.values := [] |} with
     | Some _ => []
     | None =>
         if bool_decide
              (Forall (fun r => inherited_key (cm_table_name r) = false)
                 (Resources.column_rows st))
         then schema_grouped
                (merge_sort (Resources.schema_order st)
                   (Resources.column_rows st))
         else []
     end)),
   [{| Resources.text := Resources.READ_SCHEMA_SQL; Resources.values := [] |}]).
Proof.
  unfold Resources.readResource; simpl.
  unfold Resources.try_catch, Resources.bind, Resources.query, Resources.ret.
  destruct (Resources.rejects st _); [reflexivity|].
  change (@nil (string * list Resources.SchemaEntry))
    with (schema_grouped []) at 1.
  rewrite schema_loop_result by constructor.
  rewrite (bool_decide_ext _ _ (schema_rows_plain st)).
  case_bool_decide; reflexivity.
Qed.

(** X25. Reading the schema, when the store answers and no table is named
    like a member of [Object.prototype]: the content has one property for
    each table, holding the entries of that table's columns in the order
    of the query; every stored column is in the entries of its table, and
    every entry comes from a stored column of that table. *)
Theorem reading_the_schema (st : Resources.Store) :
  Resources.rejects st
    {| Resources.text := Resources.READ_SCHEMA_SQL; Resources.values := [] |}
    = None ->
  Forall (fun r => inherited_key (cm_table_name r) = false)
    (Resources.column_rows st) ->
  exists schema,
    Resources.readResource st
      {| Resources.resourceName := "schemas";
         Resources.resourceId := Some "main" |} =
    (Normal (Resources.Found (Resources.SchemaContent schema)),
     [{| Resources.text := Resources.READ_SCHEMA_SQL;
         Resources.values := [] |}]) /\
    schema =
      schema_grouped
        (merge_sort (Resources.schema_order st) (Resources.column_rows st)) /\
    (forall r, r ∈ Resources.column_rows st ->
       exists entries,
         own_property schema (cm_table_name r) = Some entries /\
         Resources.schema_entry r ∈ entries) /\
    (forall t entries e,
       own_property schema t = Some entries -> e ∈ entries ->
       exists r, r ∈ Resources.column_rows st /\ cm_table_name r = t /\
                 e = Resources.schema_entry r).
Proof.
  intros Hq Hplain. eexists. split; [|split; [reflexivity|]].
  - rewrite readResource_schema_eq, Hq.
    rewrite bool_decide_eq_true_2 by exact Hplain. reflexivity.
  - set (sorted := merge_sort (Resources.schema_order st)
                     (Resources.column_rows st)).
    assert (forall r, r ∈ sorted <-> r ∈ Resources.column_rows st) as Hperm
      by (intros r; unfold sorted; rewrite merge_sort_Permutation; reflexivity).
    split.
    + intros r Hr. exists (schema_group sorted (cm_table_name r)).
      rewrite own_property_schema_grouped. split.
      * rewrite bool_decide_eq_true_2; [reflexivity|].
        apply elem_of_first_occurrences, list_elem_of_fmap.
        exists r. split; [reflexivity | apply Hperm; exact Hr].
      * unfold schema_group. apply list_elem_of_fmap.
        exists r. split; [reflexivity|].
        apply list_elem_of_filter. split; [reflexivity | apply Hperm; exact Hr].
    + intros t entries e Hown He.
      rewrite own_property_schema_grouped in Hown.
      case_bool_decide; [|discriminate]. injection Hown as <-.
      unfold schema_group in He.
      apply list_elem_of_fmap in He as (r & -> & Hr).
      apply list_elem_of_filter in Hr as [Ht Hr].
      exists r. split; [apply Hperm; exact Hr | auto].
Qed.

Lemma reading_the_schema_witness :
  exists schema entries,
    fst (Resources.readResource Stores.shop
           {| Resources.resourceName := "schemas";
              Resources.resourceId := Some "main" |}) =
      Normal (Resources.Found (Resources.SchemaContent schema)) /\
    own_property schema "orders" = Some entries /\
    length entries = 2%nat.
Proof.
  destruct (reading_the_schema Stores.shop eq_refl) as (schema & Heq & -> & _).
  - repeat constructor.
  - eexists _, _. rewrite Heq. split; [reflexivity|].
    split; vm_compute; reflexivity.
Defined.

(** X26. Reading the schema hides its failures: when the store rejects the
    query, or a stored column belongs to a table named like a member of
    [Object.prototype], the content is the empty object and no error is
    reported. With any resource id other than [main] no query is sent and
    the answer is [Resource not found]. *)
Theorem schema_failures_are_hidden (st : Resources.Store) :
  (Resources.rejects st
     {| Resources.text := Resources.READ_SCHEMA_SQL; Resources.values := [] |}
     <> None \/
   Exists (fun r => inherited_key (cm_table_name r) = true)
     (Resources.column_rows st) ->
   Resources.readResource st
     {| Resources.resourceName := "schemas";
        Resources.resourceId := Some "main" |} =
   (Normal (Resources.Found (Resources.SchemaContent [])),
    [{| Resources.text := Resources.READ_SCHEMA_SQL;
        Resources.values := [] |}])) /\
  (forall id,
     id <> Some "main" ->
     Resources.readResource st
       {| Resources.resourceName := "schemas"; Resources.resourceId := id |} =
     (Normal (Resources.Error "Resource not found"), [])).
Proof.
  split.
  - intros H. rewrite readResource_schema_eq.
    destruct (Resources.rejects st _) as [msg|]; [reflexivity|].
    destruct H as [H|H]; [congruence|].
    rewrite bool_decide_eq_false_2; [reflexivity|].
    intros Hall. apply Exists_exists in H as (r & Hr & Hinh).
    rewrite Forall_forall in Hall. specialize (Hall r Hr). congruence.
  - intros id Hid. unfold Resources.readResource; simpl.
    rewrite (bool_decide_eq_false_2 (id = Some "main")) by exact Hid.
    reflexivity.
Qed.

Lemma schema_failures_are_hidden_witness :
  Resources.column_rows Stores.with_constructor <> [] /\
  fst (Resources.readResource Stores.with_constructor
         {| Resources.resourceName := "schemas";
            Resources.resourceId := Some "main" |}) =
  Normal (Resources.Found (Resources.SchemaContent [])).
Proof.
  split; [discriminate|].
  destruct (schema_failures_are_hidden Stores.with_constructor) as [H _].
  rewrite H; [reflexivity|].
  right. apply Exists_cons_hd. reflexivity.
Defined.

(** * Properties of the startup block *)

Section StartupFacts.

Variable w : World.
Variable b : Startup.Boot.

Lemma set_embedding_ids (e : vector) (i : Z)
    (stored : list Startup.StoredColumn) :
  map Startup.id (Startup.set_embedding e i stored) = map Startup.id stored.
Proof.
  unfold Startup.set_embedding. rewrite map_map. apply map_ext.
  intros r. case_bool_decide; reflexivity.
Qed.

Lemma set_embedding_keeps (e : vector) (i : Z)
    (stored : list Startup.StoredColumn) (r : Startup.StoredColumn) :
  Startup.id r <> i -> r ∈ stored -> r ∈ Startup.set_embedding e i stored.
Proof.
  intros Hne Hr. unfold Startup.set_embedding.
  apply list_elem_of_fmap. exists r. split; [|exact Hr].
  rewrite bool_decide_eq_false_2 by exact Hne. reflexivity.
Qed.

(** A row without an embedding after an update had none before it and is
    not the updated one. *)
Lemma set_embedding_pending (e : vector) (i : Z)
    (stored : list Startup.StoredColumn) (r : Startup.StoredColumn) :
  r ∈ Startup.set_embedding e i stored ->
  cm_embedding (Startup.column r) = None ->
  r ∈ stored /\ Startup.id r <> i.
Proof.
  unfold Startup.set_embedding. intros Hr Hnone.
  apply list_elem_of_fmap in Hr as (r0 & Heq & Hr0).
  case_bool_decide as Hid.
  - subst r. discriminate.
  - subst r. auto.
Qed.

Lemma backfill_keeps (r : Startup.StoredColumn)
    (todo : list Startup.StoredColumn) (s : Startup.State) :
  (forall row, row ∈ todo -> Startup.id row <> Startup.id r) ->
  r ∈ Startup.rows s ->
  r ∈ Startup.rows (snd (Startup.backfill w b todo s)).
Proof.
  revert s. induction todo as [|row rest IH]; intros s Hids Hr.
  - exact Hr.
  - cbn [Startup.backfill]. rewrite generateEmbedding_eq.
    assert (forall row', row' ∈ rest -> Startup.id row' <> Startup.id r)
      as Hrest by (intros row' H'; apply Hids; right; exact H').
    destruct (openai_createEmbedding w (Startup.history s)
                (Startup.embedding_text row)) as [e|msg].
    + destruct (Startup.update_error b (Startup.rows s) e (Startup.id row));
        [exact Hr|].
      apply IH; [exact Hrest|]. simpl.
      apply set_embedding_keeps; [|exact Hr].
      intros Heq. apply (Hids row); [left | symmetry; exact Heq].
    + apply IH; [exact Hrest | exact Hr].
Qed.

Lemma backfill_outage (todo : list Startup.StoredColumn) (s : Startup.State) :
  (forall h text, exists msg,
     openai_createEmbedding w h text = Rejected msg) ->
  Startup.backfill w b todo s =
  (Normal tt,
   {| Startup.rows := Startup.rows s;
      Startup.history :=
        Startup.history s ++
        map (fun row => CreateEmbedding (Startup.embedding_text row)) todo |}).
Proof.
  intros Hdown. revert s. induction todo as [|row rest IH]; intros s.
  - simpl. rewrite app_nil_r. destruct s; reflexivity.
  - cbn [Startup.backfill]. rewrite generateEmbedding_eq.
    destruct (Hdown (Startup.history s) (Startup.embedding_text row))
      as [msg ->].
    rewrite IH. simpl. rewrite <- app_assoc. reflexivity.
Qed.

Lemma backfill_complete (todo : list Startup.StoredColumn)
    (s : Startup.State) :
  (forall h text, exists e, openai_createEmbedding w h text = Fulfilled e) ->
  (forall stored e i, Startup.update_error b stored e i = None) ->
  exists s',
    Startup.backfill w b todo s = (Normal tt, s') /\
    map Startup.id (Startup.rows s') = map Startup.id (Startup.rows s) /\
    Startup.history s' =
      Startup.history s ++
      map (fun row => CreateEmbedding (Startup.embedding_text row)) todo /\
    forall r, r ∈ Startup.rows s' ->
      cm_embedding (Startup.column r) = None ->
      r ∈ Startup.rows s /\ Startup.id r ∉ map Startup.id todo.
Proof.
  intros Hup Hok. revert s. induction todo as [|row rest IH]; intros s.
  - exists s. split; [reflexivity|]. split; [reflexivity|].
    split; [simpl; rewrite app_nil_r; reflexivity|].
    intros r Hr _. split; [exact Hr | apply not_elem_of_nil].
  - cbn [Startup.backfill]. rewrite generateEmbedding_eq.
    destruct (Hup (Startup.history s) (Startup.embedding_text row))
      as [e ->].
    rewrite Hok.
    destruct (IH {| Startup.rows :=
                      Startup.set_embedding e (Startup.id row) (Startup.rows s);
                    Startup.history :=
                      Startup.history s ++
                      [CreateEmbedding (Startup.embedding_text row)] |})
      as (s' & Heq & Hids & Hhist & Hnone).
    exists s'. split; [exact Heq|]. simpl in *. split; [|split].
    + rewrite Hids. apply set_embedding_ids.
    + rewrite Hhist, <- app_assoc. reflexivity.
    + intros r Hr Hr0. destruct (Hnone r Hr Hr0) as [Hin Hnotin].
      destruct (set_embedding_pending _ _ _ _ Hin Hr0) as [Hin' Hne].
      split; [exact Hin'|]. rewrite not_elem_of_cons. auto.
Qed.

End StartupFacts.

Lemma NoDup_fmap_eq {A B} (f : A -> B) (l : list A) (x y : A) :
  NoDup (map f l) -> x ∈ l -> y ∈ l -> f x = f y -> x = y.
Proof.
  induction l as [|a l IH]; simpl; intros Hnd Hx Hy Hxy.
  - apply elem_of_nil in Hx. contradiction.
  - apply NoDup_cons in Hnd as [Hnotin Hnd].
    apply elem_of_cons in Hx as [->|Hx]; apply elem_of_cons in Hy as [->|Hy].
    + reflexivity.
    + exfalso. apply Hnotin. rewrite Hxy. apply list_elem_of_fmap. eauto.
    + exfalso. apply Hnotin. rewrite <- Hxy. apply list_elem_of_fmap. eauto.
    + apply IH; assumption.
Qed.

Lemma elem_of_pending (stored : list Startup.StoredColumn)
    (r : Startup.StoredColumn) :
  r ∈ Startup.pending stored <->
  r ∈ stored /\ cm_embedding (Startup.column r) = None.
Proof.
  unfold Startup.pending. rewrite !list_elem_of_In, filter_In.
  destruct (cm_embedding (Startup.column r)); intuition congruence.
Qed.

(** X27. When the stored ids are distinct, the startup block never changes
    a row that already has an embedding: such a row is still stored when
    the block ends, whether the server then listens or the process
    exits. *)
Theorem startup_keeps_existing_embeddings
    (w : World) (b : Startup.Boot) (s : Startup.State)
    (r : Startup.StoredColumn) (e : vector) :
  NoDup (map Startup.id (Startup.rows s)) ->
  r ∈ Startup.rows s ->
  cm_embedding (Startup.column r) = Some e ->
  r ∈ Startup.rows (snd (Startup.start w b s)).
Proof.
  intros Hnd Hr He. unfold Startup.start.
  destruct (Startup.connect_error b); [exact Hr|].
  destruct (Startup.select_error b); [exact Hr|].
  assert (r ∈ Startup.rows
                (snd (Startup.backfill w b (Startup.pending (Startup.rows s)) s)))
    as Hkept.
  { apply backfill_keeps; [|exact Hr].
    intros row Hrow Hid. apply elem_of_pending in Hrow as [Hrow Hnone].
    assert (row = r) as ->
      by (eapply (NoDup_fmap_eq Startup.id); eauto).
    congruence. }
  destruct (Startup.backfill w b (Startup.pending (Startup.rows s)) s)
    as [[[]|msg] s']; simpl in *;
    [destruct (Startup.listen_error b)|]; exact Hkept.
Qed.

Lemma startup_keeps_existing_embeddings_witness :
  {| Startup.id := 1;
     Startup.column := Examples.column "orders" "status" (Some [(1#2)%Q]) |} ∈
  Startup.rows
    (snd (Startup.start Examples.healthy Startup.smooth
            {| Startup.rows := Startup.stored_example;
               Startup.history := [] |})).
Proof.
  apply (startup_keeps_existing_embeddings Examples.healthy Startup.smooth
           {| Startup.rows := Startup.stored_example; Startup.history := [] |}
           _ [(1#2)%Q]).
  - simpl. repeat (apply NoDup_cons; split;
                   [rewrite ?not_elem_of_cons; repeat split;
                    try discriminate; apply not_elem_of_nil|]).
    apply NoDup_nil. exact I.
  - apply list_elem_of_here.
  - reflexivity.
Defined.

(** X28. While the embedding service rejects every call, and provided
    that connecting, the SELECT and listening succeed, the startup block
    asks once for each row without an embedding, in stored order, with the
    text [Table: t, Column: c, Description: d]; it changes no row, and the
    server listens all the same: the rows stay without an embedding, and
    the outcome of the block is that of a start with nothing to fill in. *)
Theorem startup_ignores_embedding_failures
    (w : World) (b : Startup.Boot) (s : Startup.State) :
  (forall h text, exists msg,
     openai_createEmbedding w h text = Rejected msg) ->
  Startup.connect_error b = None ->
  Startup.select_error b = None ->
  Startup.listen_error b = None ->
  Startup.start w b s =
  (Startup.Listening,
   {| Startup.rows := Startup.rows s;
      Startup.history :=
        Startup.history s ++
        map (fun row => CreateEmbedding (Startup.embedding_text row))
            (Startup.pending (Startup.rows s)) |}).
Proof.
  intros Hdown Hc Hs Hl. unfold Startup.start.
  rewrite Hc, Hs, (backfill_outage w b _ s Hdown), Hl. reflexivity.
Qed.

Lemma startup_ignores_embedding_failures_witness :
  Startup.start Examples.embedding_outage Startup.smooth
    {| Startup.rows := Startup.stored_example; Startup.history := [] |} =
  (Startup.Listening,
   {| Startup.rows := Startup.stored_example;
      Startup.history :=
        [ CreateEmbedding
            "Table: customers, Column: email, Description: A text column";
          CreateEmbedding
            "Table: customers, Column: phone, Description: A text column" ] |}).
Proof.
  rewrite (startup_ignores_embedding_failures Examples.embedding_outage
             Startup.smooth).
  - reflexivity.
  - intros h text. eexists. reflexivity.
  - reflexivity.
  - reflexivity.
  - reflexivity.
Defined.

(** X29. When connecting, the SELECT and listening succeed, the embedding
    service answers every call and the store accepts every update, the
    server listens, every stored row has an
    embedding afterwards, the ids of the stored rows are unchanged, and
    the embedding service was asked exactly once for each row that had
    none, in stored order. *)
Theorem startup_fills_every_embedding
    (w : World) (b : Startup.Boot) (s : Startup.State) :
  (forall h text, exists e, openai_createEmbedding w h text = Fulfilled e) ->
  (forall stored e i, Startup.update_error b stored e i = None) ->
  Startup.connect_error b = None ->
  Startup.select_error b = None ->
  Startup.listen_error b = None ->
  exists s',
    Startup.start w b s = (Startup.Listening, s') /\
    Startup.pending (Startup.rows s') = [] /\
    map Startup.id (Startup.rows s') = map Startup.id (Startup.rows s) /\
    Startup.history s' =
      Startup.history s ++
      map (fun row => CreateEmbedding (Startup.embedding_text row))
          (Startup.pending (Startup.rows s)).
Proof.
  intros Hup Hok Hc Hs Hl.
  destruct (backfill_complete w b (Startup.pending (Startup.rows s)) s Hup Hok)
    as (s' & Heq & Hids & Hhist & Hnone).
  exists s'. unfold Startup.start. rewrite Hc, Hs, Heq, Hl.
  split; [reflexivity|]. split; [|split; assumption].
  destruct (Startup.pending (Startup.rows s')) as [|r rest] eqn:Hp;
    [reflexivity|].
  exfalso.
  assert (r ∈ Startup.pending (Startup.rows s')) as Hr
    by (rewrite Hp; apply list_elem_of_here).
  apply elem_of_pending in Hr as [Hr Hr0].
  destruct (Hnone r Hr Hr0) as [Hin Hnotin].
  apply Hnotin. apply list_elem_of_fmap. exists r. split; [reflexivity|].
  apply elem_of_pending. auto.
Qed.

Lemma startup_fills_every_embedding_witness :
  exists s',
    Startup.start Examples.healthy Startup.smooth
      {| Startup.rows := Startup.stored_example; Startup.history := [] |} =
    (Startup.Listening, s') /\
    Startup.pending (Startup.rows s') = [].
Proof.
  destruct (startup_fills_every_embedding Examples.healthy Startup.smooth
              {| Startup.rows := Startup.stored_example;
                 Startup.history := [] |})
    as (s' & Heq & Hnone & _).
  - intros h text. eexists. reflexivity.
  - reflexivity.
  - reflexivity.
  - reflexivity.
  - reflexivity.
  - exists s'. split; [exact Heq | exact Hnone].
Defined.
